(** * Lutris: game actions and widget utilities

    A shallow embedding of [lutris/game_actions.py] (the [GameActions]
    callbacks and their visibility table) and of the image helpers of
    [lutris/gui/widgets/utils.py] ([get_pixbuf], [get_default_icon],
    [thumbnail_image]), with the properties stated about them.

    Python objects are records, dictionaries are [gmap]s, the calls that
    leave the two modules (the Game model, GTK dialogs, the xdg and Steam
    shortcut helpers, the logger, spawned commands) are recorded as events
    of a trace, and exceptions are an explicit outcome. Python floats are
    IEEE 754 binary64 numbers, computed with the Standard Library's
    [SpecFloat]. *)

From Stdlib Require Import ZArith Ascii String SpecFloat DecimalString.
From stdpp Require Import gmap strings list fin_maps.

Local Open Scope Z_scope.
Local Open Scope string_scope.

(** ** Python values *)

(** A game id is an integer (database rows), a string, or [None]
    ([GameActions.__init__] starts with [game_id = None]). *)
Inductive PyId :=
| IdNone
| IdInt (z : Z)
| IdStr (s : string).

(** [str(x)] on ids. *)
Definition py_str (i : PyId) : string :=
  match i with
  | IdNone => "None"
  | IdInt z => NilZero.string_of_int (Z.to_int z)
  | IdStr s => s
  end.

(** Truth value of a [str]-or-[None]: [None] and the empty string are false. *)
Definition truthy (o : option string) : bool :=
  match o with
  | None => false
  | Some s => negb (String.eqb s "")
  end.

(** Values stored in a database row. *)
Inductive PyVal :=
| VNone
| VBool (b : bool)
| VInt (z : Z)
| VStr (s : string).

Definition val_of_id (i : PyId) : PyVal :=
  match i with
  | IdNone => VNone
  | IdInt z => VInt z
  | IdStr s => VStr s
  end.

Definition val_of_opt (o : option string) : PyVal :=
  match o with
  | None => VNone
  | Some s => VStr s
  end.

Definition PyVal_eqb (a b : PyVal) : bool :=
  match a, b with
  | VNone, VNone => true
  | VBool x, VBool y => Bool.eqb x y
  | VInt x, VInt y => Z.eqb x y
  | VStr x, VStr y => String.eqb x y
  | _, _ => false
  end.

(** Exceptions that the modelled code can raise. *)
Inductive exn :=
| RuntimeError (msg : string)
| AttributeError
| TypeError
| KeyError (key : string)
| ZeroDivisionError
| OverflowError
| ValueError
| GError.

Inductive Res (A : Type) :=
| Ok (a : A)
| Raise (e : exn).
Arguments Ok {A} a.
Arguments Raise {A} e.

Definition is_ok {A} (r : Res A) : bool :=
  match r with
  | Ok _ => true
  | Raise _ => false
  end.

(** ** os.path helpers *)

Fixpoint has_slash (s : string) : bool :=
  match s with
  | EmptyString => false
  | String c r => if Ascii.eqb c "/"%char then true else has_slash r
  end.

(** [os.path.basename]: what follows the last slash. *)
Fixpoint basename (s : string) : string :=
  match s with
  | EmptyString => EmptyString
  | String c r =>
      if has_slash r then basename r
      else if Ascii.eqb c "/"%char then r else s
  end.

Fixpoint ends_with_slash (s : string) : bool :=
  match s with
  | EmptyString => false
  | String c EmptyString => Ascii.eqb c "/"%char
  | String _ r => ends_with_slash r
  end.

(** [os.path.join a b] for a relative [b]. *)
Definition path_join (a b : string) : string :=
  if String.eqb a "" then b
  else if ends_with_slash a then a ++ b
  else a ++ "/" ++ b.

(** ** The Game model, as this module sees it *)

(** [runner.system_config] is a dictionary of settings. *)
Record Runner := { system_config : gmap string string }.

Module Game.
(** The attributes of [lutris.game.Game] that the two modules read.
    [browse_dir] is the value of [get_browse_dir()]. *)
Record t := mk {
  id : PyId;
  slug : string;
  name : string;
  is_installed : bool;
  is_updatable : bool;
  is_favorite : bool;
  is_hidden : bool;
  service : option string;
  runner_name : string;
  runner : option Runner;
  game_config_id : option string;
  directory : string;
  log_buffer : option string;
  browse_dir : option string
}.
End Game.

(** ** Effects *)

Inductive LogMsg :=
| GameNotIn (game_id : PyId) (ids : list PyId)
| NoLogForGame (g : Game.t)
| RunningInBackground (cmd : string)
| UnableToLoadIcon (image : string).

Inductive Notice :=
| NoInstallDir
| FolderMissing (path : string).

(** Every call that leaves the two modules, in program order. *)
Inductive Event :=
| GameLaunch (g : Game.t)
| GameForceStop (g : Game.t)
| GameEmit (g : Game.t) (signal : string)
| GameAddToFavorites (g : Game.t)
| GameRemoveFromFavorites (g : Game.t)
| GameSetHidden (g : Game.t) (b : bool)
| GameSave (game_id : PyId)
| LoggerWarning (m : LogMsg)
| LoggerInfo (m : LogMsg)
| LoggerError (m : LogMsg)
| NoticeDialog (n : Notice)
| QuestionDialog (game_name : string)
| LogWindow (g : Game.t) (buffer : option string)
| AddGameDialog (g : Game.t) (runner : option string)
| ShowEditGameConfigDialog (g : Game.t)
| UninstallGameDialog (game_id : PyId)
| RemoveGameDialog (game_id : PyId)
| CreateLauncher (slug : string) (game_id : PyId) (name : string)
    (desktop menu : bool)
| RemoveLauncher (slug : string) (game_id : PyId) (desktop menu : bool)
| SteamCreateShortcut (g : Game.t)
| SteamRemoveShortcut (g : Game.t)
| SystemExecute (argv : list string)
| MonitoredCommandStart (argv include_processes : list string)
    (cwd : string)
| DuplicateGameConfig (slug old_config_id : string)
| DbAddGame (fields : gmap string PyVal).

(** ** Program state *)

(** The running application: the two methods [GameActions] calls. *)
Record Application := {
  get_game_by_id : PyId -> option Game.t;
  get_running_game_ids : list PyId
}.

(** The [GameActions] object. [window] is only handed to dialogs as their
    parent and is left out. *)
Record GameActions := mkGameActions {
  application : Application;
  game_id : PyId;
  _game : option Game.t
}.

(** What the code reads from outside: launcher files, Steam's shortcut
    list, the file system, the games database, the user's answer to a
    question dialog. *)
Record World := mkWorld {
  desktop_launcher_exists : string -> PyId -> bool;
  menu_launcher_exists : string -> PyId -> bool;
  shortcut_exists : Game.t -> bool;
  is_steam_game : Game.t -> bool;
  (** size of the file at a path, [None] when there is none *)
  files : string -> option Z;
  (** whether GdkPixbuf can decode the file at a path *)
  loadable : string -> bool;
  datapath_get : string;
  (** the constructor [Game(game_id)], which reads the database *)
  Game_init : list (gmap string PyVal) -> PyId -> Game.t;
  pga : list (gmap string PyVal);
  get_unusued_game_name : string -> string;
  duplicate_game_config : string -> string -> string;
  (** [confirm_dlg.result == Gtk.ResponseType.YES] *)
  question_yes : bool;
  (** the id that the call of [add_game] returns, by its keyword arguments *)
  add_game_returns : gmap string PyVal -> PyId
}.

Record State := mkState {
  self : GameActions;
  world : World;
  trace : list Event
}.

(** State and exception monad; the state survives a raise. *)
Definition M (A : Type) : Type := State -> Res A * State.

Definition ret {A} (a : A) : M A := fun st => (Ok a, st).
Definition raise {A} (e : exn) : M A := fun st => (Raise e, st).
Definition bind {A B} (m : M A) (k : A -> M B) : M B :=
  fun st =>
    match m st with
    | (Ok a, st') => k a st'
    | (Raise e, st') => (Raise e, st')
    end.

Notation "'let*' x ':=' m 'in' k" := (bind m (fun x => k))
  (at level 10, x name, m at level 100, k at level 200).
Notation "m ';;' k" := (bind m (fun _ => k))
  (at level 100, k at level 200, right associativity).

Definition get_world : M World := fun st => (Ok (world st), st).
Definition get_self : M GameActions := fun st => (Ok (self st), st).

Definition emit (e : Event) : M unit :=
  fun st => (Ok tt, mkState (self st) (world st) (trace st ++ [e])).

Definition set__game (g : option Game.t) : M unit :=
  fun st =>
    (Ok tt,
     mkState (mkGameActions (application (self st)) (game_id (self st)) g)
             (world st) (trace st)).

(** Modelled from the spec: [lutris.util.system.path_exists] is not among
    the sources. [None] and the empty path do not exist; any other path
    exists when the file system has a file there, and with
    [exclude_empty] only when that file is not empty. *)
Definition path_exists (w : World) (path : option string)
    (exclude_empty : bool) : bool :=
  match path with
  | None => false
  | Some p =>
      if String.eqb p "" then false
      else match files w p with
           | None => false
           | Some sz => if exclude_empty then (0 <? sz)%Z else true
           end
  end.

(** ** GameActions: properties and the two tables *)

(** The [game] property: the cached [_game]; otherwise the running game of
    that id, otherwise a new [Game(game_id)]; the result is cached. *)
Definition game : M Game.t :=
  let* s := get_self in
  match _game s with
  | Some g => ret g
  | None =>
      let* w := get_world in
      let g := match get_game_by_id (application s) (game_id s) with
               | Some g => g
               | None => Game_init w (pga w) (game_id s)
               end in
      (set__game (Some g);; ret g)
  end.

(** The [is_game_running] property. *)
Definition is_game_running : M bool :=
  let* s := get_self in
  ret (match get_game_by_id (application s) (game_id s) with
       | Some _ => true
       | None => false
       end).

Definition set_game (g : option Game.t) (gid : PyId) : M unit :=
  fun st =>
    let app := application (self st) in
    (Ok tt,
     mkState (match g with
              | Some g' => mkGameActions app (Game.id g') (Some g')
              | None => mkGameActions app gid None
              end)
             (world st) (trace st)).

(** Truth value of [self.game.runner and
    self.game.runner.system_config.get("manual_command")]. *)
Definition has_manual_command (g : Game.t) : bool :=
  match Game.runner g with
  | Some r => truthy (system_config r !! "manual_command")
  | None => false
  end.

(** The dictionary literal of [get_displayed_entries], in source order,
    for the game [g], the running status and the outside world [w]. *)
Definition displayed_items (g : Game.t) (running : bool) (w : World)
  : list (string * bool) :=
  [ ("add", negb (Game.is_installed g));
    ("duplicate", true);
    ("install", negb (Game.is_installed g));
    ("play", Game.is_installed g && negb running);
    ("update", Game.is_updatable g);
    ("install_dlcs", Game.is_updatable g);
    ("stop", running);
    ("configure", Game.is_installed g);
    ("browse",
      Game.is_installed g && negb (String.eqb (Game.runner_name g) "browser"));
    ("show_logs", Game.is_installed g);
    ("favorite", negb (Game.is_favorite g));
    ("deletefavorite", Game.is_favorite g);
    ("install_more", negb (truthy (Game.service g)) && Game.is_installed g);
    ("execute-script", Game.is_installed g && has_manual_command g);
    ("desktop-shortcut",
      Game.is_installed g &&
      negb (desktop_launcher_exists w (Game.slug g) (Game.id g)));
    ("menu-shortcut",
      Game.is_installed g &&
      negb (menu_launcher_exists w (Game.slug g) (Game.id g)));
    ("steam-shortcut",
      Game.is_installed g && negb (shortcut_exists w g) &&
      negb (is_steam_game w g));
    ("rm-desktop-shortcut",
      Game.is_installed g &&
      desktop_launcher_exists w (Game.slug g) (Game.id g));
    ("rm-menu-shortcut",
      Game.is_installed g &&
      menu_launcher_exists w (Game.slug g) (Game.id g));
    ("rm-steam-shortcut",
      Game.is_installed g && shortcut_exists w g &&
      negb (is_steam_game w g));
    ("remove", true);
    ("view", true);
    ("hide", Game.is_installed g && negb (Game.is_hidden g));
    ("unhide", Game.is_hidden g) ].

(** [get_displayed_entries]: every [self.game] of the literal is the same
    cached object (see [game_twice]), so it is read once. *)
Definition get_displayed_entries : M (gmap string bool) :=
  let* g := game in
  let* running := is_game_running in
  let* w := get_world in
  ret (list_to_map (displayed_items g running w)).

(** ** GameActions: the callbacks *)

(** [open_uri] of [lutris/gui/widgets/utils.py]. *)
Definition open_uri (uri : string) : M unit :=
  emit (SystemExecute ["xdg-open"; uri]).

Definition on_game_launch : M unit :=
  let* g := game in emit (GameLaunch g).

(** The loop of [get_running_game]: the first id whose [str] is that of
    the game's id returns the game. *)
Fixpoint get_running_game_loop (ids : list PyId) : M (option Game.t) :=
  match ids with
  | [] => ret None
  | i :: rest =>
      let* g := game in
      if String.eqb (py_str i) (py_str (Game.id g))
      then ret (Some g)
      else get_running_game_loop rest
  end.

Definition get_running_game : M (option Game.t) :=
  let* s := get_self in
  let ids := get_running_game_ids (application s) in
  let* found := get_running_game_loop ids in
  match found with
  | Some g => ret (Some g)
  | None => (emit (LoggerWarning (GameNotIn (game_id s) ids));; ret None)
  end.

Definition on_game_stop : M unit :=
  let* g := get_running_game in
  match g with
  | Some g => emit (GameForceStop g)
  | None => ret tt
  end.

Definition on_show_logs : M unit :=
  let* g := game in
  let _buffer := Game.log_buffer g in
  (match _buffer with
   | None => emit (LoggerInfo (NoLogForGame g))
   | Some _ => ret tt
   end;;
   emit (LogWindow g _buffer)).

Definition on_install_clicked : M unit :=
  let* g := game in
  if String.eqb (Game.slug g) ""
  then raise (RuntimeError ("No game to install: " ++ py_str (Game.id g)))
  else emit (GameEmit g "game-install").

Definition on_update_clicked : M unit :=
  let* g := game in emit (GameEmit g "game-install-update").

Definition on_install_dlc_clicked : M unit :=
  let* g := game in emit (GameEmit g "game-install-dlc").

Definition on_locate_installed_game (g : Game.t) : M unit :=
  emit (AddGameDialog g None).

Definition on_add_manually : M unit :=
  let* g := game in emit (AddGameDialog g (Some (Game.runner_name g))).

(** Modelled from the spec: [lutris.database.games.get_game_by_field] is
    not among the sources; it returns (a copy of) the first row whose
    [field] holds [value], and an empty dictionary when there is none. *)
Definition find_game_row (w : World) (value : PyId) (field : string)
  : option (gmap string PyVal) :=
  List.find (fun row => match row !! field with
                        | Some v => PyVal_eqb v (val_of_id value)
                        | None => false
                        end) (pga w).

Definition get_game_by_field (w : World) (value : PyId) (field : string)
  : gmap string PyVal :=
  match find_game_row w value field with
  | Some row => row
  | None => ∅
  end.

(** [lutris.database.games.add_game] is not among the sources: the call
    is recorded with its keyword arguments, and the id it returns is the
    one the world gives. *)
Definition add_game (fields : gmap string PyVal) : M PyId :=
  let* w := get_world in
  (emit (DbAddGame fields);;
   ret (add_game_returns w fields)).

Definition on_game_duplicate : M unit :=
  let* g := game in
  let* w := get_world in
  (emit (QuestionDialog (Game.name g));;
   if negb (question_yes w) then ret tt
   else
     let assigned_name := get_unusued_game_name w (Game.name g) in
     let old_config_id := Game.game_config_id g in
     let* new_config_id :=
       match old_config_id with
       | Some old =>
           if truthy old_config_id
           then (emit (DuplicateGameConfig (Game.slug g) old);;
                 ret (Some (duplicate_game_config w (Game.slug g) old)))
           else ret None
       | None => ret None
       end in
     let db_game := get_game_by_field w (Game.id g) "id" in
     let db_game := <["name" := VStr assigned_name]> db_game in
     let db_game := <["configpath" := val_of_opt new_config_id]> db_game in
     match db_game !! "id" with
     | None => raise (KeyError "id")
     | Some _ =>
         let db_game := delete "id" db_game in
         let db_game := delete "service" db_game in
         let db_game := delete "service_id" db_game in
         let* new_id := add_game db_game in
         emit (GameSave new_id)
     end).

Definition on_edit_game_configuration : M unit :=
  let* g := game in emit (ShowEditGameConfigDialog g).

Definition on_add_favorite_game : M unit :=
  let* g := game in emit (GameAddToFavorites g).

Definition on_delete_favorite_game : M unit :=
  let* g := game in emit (GameRemoveFromFavorites g).

Definition on_hide_game : M unit :=
  let* g := game in emit (GameSetHidden g true).

Definition on_unhide_game : M unit :=
  let* g := game in emit (GameSetHidden g false).

Definition on_execute_script_clicked : M unit :=
  let* g := game in
  match Game.runner g with
  | None => raise AttributeError
  | Some r =>
      let manual_command := system_config r !! "manual_command" in
      let* w := get_world in
      if path_exists w manual_command false then
        match manual_command with
        | None => raise TypeError
        | Some cmd =>
            (emit (MonitoredCommandStart [cmd] [basename cmd]
                     (Game.directory g));;
             emit (LoggerInfo (RunningInBackground cmd)))
        end
      else ret tt
  end.

Definition on_browse_files : M unit :=
  let* g := game in
  let* w := get_world in
  let path := Game.browse_dir g in
  if negb (truthy path) then emit (NoticeDialog NoInstallDir)
  else if path_exists w path false
       then open_uri ("file://" ++ default "" path)
       else emit (NoticeDialog (FolderMissing (default "" path))).

Definition on_create_menu_shortcut : M unit :=
  let* g := game in
  emit (CreateLauncher (Game.slug g) (Game.id g) (Game.name g) false true).

Definition on_create_steam_shortcut : M unit :=
  let* g := game in emit (SteamCreateShortcut g).

Definition on_create_desktop_shortcut : M unit :=
  let* g := game in
  emit (CreateLauncher (Game.slug g) (Game.id g) (Game.name g) true false).

Definition on_remove_menu_shortcut : M unit :=
  let* g := game in
  emit (RemoveLauncher (Game.slug g) (Game.id g) false true).

Definition on_remove_steam_shortcut : M unit :=
  let* g := game in emit (SteamRemoveShortcut g).

Definition on_remove_desktop_shortcut : M unit :=
  let* g := game in
  emit (RemoveLauncher (Game.slug g) (Game.id g) true false).

Definition on_view_game : M unit :=
  let* g := game in
  open_uri ("https://lutris.net/games/" ++ Game.slug g).

Definition on_remove_game : M unit :=
  let* g := game in
  if Game.is_installed g
  then emit (UninstallGameDialog (Game.id g))
  else emit (RemoveGameDialog (Game.id g)).

(** [get_game_actions]: name, label (the untranslated message) and bound
    callback, in source order. *)
Definition get_game_actions : list (string * string * M unit) :=
  [ ("play", "Play", on_game_launch);
    ("stop", "Stop", on_game_stop);
    ("install", "Install", on_install_clicked);
    ("update", "Install updates", on_update_clicked);
    ("install_dlcs", "Install DLCs", on_install_dlc_clicked);
    ("show_logs", "Show logs", on_show_logs);
    ("add", "Add installed game", on_add_manually);
    ("duplicate", "Duplicate", on_game_duplicate);
    ("configure", "Configure", on_edit_game_configuration);
    ("favorite", "Add to favorites", on_add_favorite_game);
    ("deletefavorite", "Remove from favorites", on_delete_favorite_game);
    ("execute-script", "Execute script", on_execute_script_clicked);
    ("browse", "Browse files", on_browse_files);
    ("desktop-shortcut", "Create desktop shortcut",
      on_create_desktop_shortcut);
    ("rm-desktop-shortcut", "Delete desktop shortcut",
      on_remove_desktop_shortcut);
    ("menu-shortcut", "Create application menu shortcut",
      on_create_menu_shortcut);
    ("rm-menu-shortcut", "Delete application menu shortcut",
      on_remove_menu_shortcut);
    ("steam-shortcut", "Create steam shortcut", on_create_steam_shortcut);
    ("rm-steam-shortcut", "Delete steam shortcut",
      on_remove_steam_shortcut);
    ("install_more", "Install another version", on_install_clicked);
    ("remove", "Remove", on_remove_game);
    ("view", "View on Lutris.net", on_view_game);
    ("hide", "Hide game from library", on_hide_game);
    ("unhide", "Unhide game from library", on_unhide_game) ].

Definition action_names : list string :=
  List.map (fun a => fst (fst a)) get_game_actions.

(** The callback bound to an action name. *)
Definition callback_of (action : string) : option (M unit) :=
  match List.find (fun a => String.eqb (fst (fst a)) action) get_game_actions with
  | Some a => Some (snd a)
  | None => None
  end.

(** ** Widget utilities: pixbufs *)

Definition ICON_SIZE : Z * Z := (32, 32)%Z.
Definition BANNER_SIZE : Z * Z := (184, 69)%Z.

(** A [GdkPixbuf.Pixbuf], as the expression that built it.
    [composite src dest ...] is [dest] after [src.composite(dest, ...)]. *)
Inductive Pixbuf :=
| new_from_file_at_size (filename : string) (width height : Z)
| scale_simple (src : Pixbuf) (dest_width dest_height : Z)
| copy (src : Pixbuf)
| composite (src dest : Pixbuf)
    (dest_x dest_y dest_width dest_height offset_x offset_y
       scale_x scale_y overall_alpha : Z).

(** [GdkPixbuf.Pixbuf.new_from_file_at_size], which raises [GLib.GError]
    on a file it cannot decode. *)
Definition Pixbuf_new_from_file_at_size (filename : string)
    (width height : Z) : M Pixbuf :=
  let* w := get_world in
  if loadable w filename
  then ret (new_from_file_at_size filename width height)
  else raise GError.

(** [try: body except GLib.GError: handler] *)
Definition try_except_GError {A} (body handler : M A) : M A :=
  fun st =>
    match body st with
    | (Raise GError, st') => handler st'
    | r => r
    end.

Definition get_default_icon (w : World) (size : Z * Z) : string :=
  if (fst size =? snd size)%Z
  then path_join (datapath_get w) "media/default_icon.png"
  else path_join (datapath_get w) "media/default_banner.png".

Definition get_overlay (overlay_path : string) (size : Z * Z) : M Pixbuf :=
  let '(width, height) := size in
  let* transparent_pixbuf :=
    Pixbuf_new_from_file_at_size overlay_path width height in
  ret (scale_simple transparent_pixbuf width height).

Definition get_pixbuf (image : string) (size : Z * Z)
    (fallback : option string) (is_installed : bool) : M Pixbuf :=
  let '(width, height) := size in
  let* w := get_world in
  let* pixbuf :=
    if path_exists w (Some image) true then
      try_except_GError
        (let* pixbuf := Pixbuf_new_from_file_at_size image width height in
         ret (Some (scale_simple pixbuf width height)))
        (emit (LoggerError (UnableToLoadIcon image));; ret None)
    else
      let fallback :=
        if truthy fallback then default "" fallback
        else get_default_icon w size in
      if path_exists w (Some fallback) false then
        let* pixbuf := Pixbuf_new_from_file_at_size fallback width height in
        ret (Some pixbuf)
      else ret None in
  match is_installed, pixbuf with
  | true, Some pixbuf => ret (scale_simple pixbuf width height)
  | _, _ =>
      let overlay := path_join (datapath_get w) "media/unavailable.png" in
      let* ov := get_overlay overlay size in
      let transparent_pixbuf := copy ov in
      match pixbuf with
      | Some pixbuf =>
          ret (composite pixbuf transparent_pixbuf
                 0 0 (fst size) (snd size) 0 0 1 1 100)
      | None => ret transparent_pixbuf
      end
  end.

(** ** Widget utilities: thumbnails *)

(** Python's [float] is IEEE 754 binary64. *)
Module Float.
Definition prec : Z := 53.
Definition emax : Z := 1024.

(** [float(n)]; exact for [|n| <= 2^53]. *)
Definition of_int (n : Z) : spec_float :=
  binary_normalize prec emax n 0 false.

Definition mul : spec_float -> spec_float -> spec_float :=
  SFmul prec emax.
Definition div : spec_float -> spec_float -> spec_float :=
  SFdiv prec emax.

(** [x >= y] *)
Definition ge (x y : spec_float) : bool := SFleb y x.

(** [a / b] on integers: the correctly rounded quotient, which for
    operands below [2^53] is the quotient of their floats. *)
Definition truediv (a b : Z) : Res spec_float :=
  if (b =? 0)%Z then Raise ZeroDivisionError
  else Ok (div (of_int a) (of_int b)).

(** [int(x)]: truncation towards zero. *)
Definition to_int (x : spec_float) : Res Z :=
  match x with
  | S754_zero _ => Ok 0%Z
  | S754_finite s m e =>
      Ok (cond_Zopp s
            match e with
            | Z0 => Zpos m
            | Zpos p => (Zpos m * 2 ^ Zpos p)%Z
            | Zneg p => (Zpos m / 2 ^ Zpos p)%Z
            end)
  | S754_infinity _ => Raise OverflowError
  | S754_nan => Raise ValueError
  end.
End Float.

Definition Res_bind {A B} (r : Res A) (k : A -> Res B) : Res B :=
  match r with
  | Ok a => k a
  | Raise e => Raise e
  end.

Notation "'let+' x ':=' m 'in' k" := (Res_bind m (fun x => k))
  (at level 10, x name, m at level 100, k at level 200).

(** A PIL image, as the expression that built it; only its size matters
    here. *)
Inductive Image :=
| Opened (width height : Z)
| Resized (src : Image) (size : Z * Z)
| Cropped (src : Image) (box : Z * Z * Z * Z).

Definition Image_size (img : Image) : Z * Z :=
  match img with
  | Opened w h => (w, h)
  | Resized _ sz => sz
  | Cropped _ (x0, y0, x1, y1) => (x1 - x0, y1 - y0)%Z
  end.

(** [Image.resize(size)] of PIL: an image that already has that size is
    copied; otherwise a width or height below 1 raises [ValueError]
    ("height and width must be > 0"). *)
Definition Image_resize (img : Image) (size : Z * Z) : Res Image :=
  if ((fst size =? fst (Image_size img)) &&
      (snd size =? snd (Image_size img)))%Z
  then Ok (Resized img size)
  else if ((fst size <? 1) || (snd size <? 1))%Z then Raise ValueError
  else Ok (Resized img size).

(** [Image.crop(box)] of PIL: a box whose right is less than its left, or
    whose lower is less than its upper, raises [ValueError]. *)
Definition Image_crop (img : Image) (box : Z * Z * Z * Z) : Res Image :=
  let '(x0, y0, x1, y1) := box in
  if ((x1 <? x0) || (y1 <? y0))%Z then Raise ValueError
  else Ok (Cropped img box).

Definition thumbnail_image (base_image : Image) (target_size : Z * Z)
  : Res Image :=
  let '(base_width, base_height) := Image_size base_image in
  let+ base_ratio := Float.truediv base_width base_height in
  let '(target_width, target_height) := target_size in
  let+ target_ratio := Float.truediv target_width target_height in
  let+ wh :=
    if Float.ge base_ratio target_ratio then
      let+ q := Float.truediv target_height base_height in
      let+ width := Float.to_int (Float.mul (Float.of_int base_width) q) in
      Ok (width, target_height)
    else
      let+ q := Float.truediv target_width base_width in
      let+ height := Float.to_int (Float.mul (Float.of_int base_height) q) in
      Ok (target_width, height) in
  let '(width, height) := wh in
  let+ qx := Float.truediv (width - target_width) 2 in
  let+ x_offset := Float.to_int qx in
  let+ qy := Float.truediv (height - target_height) 2 in
  let+ y_offset := Float.to_int qy in
  let+ base_image := Image_resize base_image (width, height) in
  Image_crop base_image
    (x_offset, y_offset, width - x_offset, height - y_offset)%Z.

(** The same computation over exact rationals: [int(a * (b / c))] is the
    floor of [a * b / c] and the ratio test is a cross multiplication.
    It is what [thumbnail_image] computes when no float operation
    rounds. *)
Definition thumbnail_size_exact (base_size target_size : Z * Z) : Z * Z :=
  let '(base_width, base_height) := base_size in
  let '(target_width, target_height) := target_size in
  let '(width, height) :=
    if (target_width * base_height <=? base_width * target_height)%Z
    then ((base_width * target_height) / base_height, target_height)%Z
    else (target_width, (base_height * target_width) / base_width)%Z in
  let x_offset := Z.quot (width - target_width) 2 in
  let y_offset := Z.quot (height - target_height) 2 in
  (width - x_offset - x_offset, height - y_offset - y_offset)%Z.

(** ** Sample states *)

Definition sample_game : Game.t :=
  Game.mk (IdInt 7) "quake" "Quake" true false false false None "linux"
    (Some {| system_config := {["manual_command" := "/opt/quake/run.sh"]} |})
    (Some "quake-1") "/opt/quake" None (Some "/opt/quake").

Definition sample_row : gmap string PyVal :=
  list_to_map
    [ ("id", VInt 7); ("name", VStr "Quake"); ("slug", VStr "quake");
      ("runner", VStr "linux"); ("installed", VInt 1);
      ("configpath", VStr "quake-1"); ("service", VStr "gog");
      ("service_id", VStr "1441704920") ].

Definition sample_world : World :=
  {| desktop_launcher_exists := fun _ _ => false;
     menu_launcher_exists := fun _ _ => false;
     shortcut_exists := fun _ => false;
     is_steam_game := fun _ => false;
     files := fun p =>
       if String.eqb p "/opt/quake/run.sh" then Some 120%Z
       else if String.eqb p "/opt/quake" then Some 4096%Z
       else if String.eqb p "/usr/share/lutris/media/unavailable.png"
       then Some 900%Z
       else if String.eqb p "/covers/quake.jpg" then Some 5000%Z
       else None;
     loadable := fun _ => true;
     datapath_get := "/usr/share/lutris";
     Game_init := fun _ i =>
       Game.mk i "" "" false false false false None "" None None "" None None;
     pga := [sample_row];
     get_unusued_game_name := fun n => n ++ " 1";
     duplicate_game_config := fun slug _ => slug ++ "-2";
     question_yes := true;
     add_game_returns := fun _ => IdInt 8 |}.

Definition sample_app : Application :=
  {| get_game_by_id := fun _ => None; get_running_game_ids := [] |}.

Definition sample_state : State :=
  mkState (mkGameActions sample_app (IdInt 7) (Some sample_game))
    sample_world [].

(** The game a state denotes: what the [game] property returns there. *)
Definition the_game (st : State) : Game.t :=
  match _game (self st) with
  | Some g => g
  | None =>
      match get_game_by_id (application (self st)) (game_id (self st)) with
      | Some g => g
      | None => Game_init (world st) (pga (world st)) (game_id (self st))
      end
  end.

(** The state once the [game] property has been read. *)
Definition cached (st : State) : State :=
  mkState
    (mkGameActions (application (self st)) (game_id (self st))
       (Some (the_game st)))
    (world st) (trace st).

Definition running (st : State) : bool :=
  match get_game_by_id (application (self st)) (game_id (self st)) with
  | Some _ => true
  | None => false
  end.

(** What a computation adds to the trace. *)
Definition events_of {A} (m : M A) (st : State) : list Event :=
  drop (length (trace st)) (trace (snd (m st))).

(** Invoking the callback of a named action: its outcome and the events
    it adds. *)
Definition invoke (action : string) (st : State)
  : option (Res unit * list Event) :=
  match callback_of action with
  | Some cb => Some (fst (cb st), events_of cb st)
  | None => None
  end.

(** First value bound to a key in a dictionary literal. *)
Fixpoint assoc (k : string) (l : list (string * bool)) : option bool :=
  match l with
  | [] => None
  | (k', v) :: rest => if String.eqb k' k then Some v else assoc k rest
  end.

(** * Properties *)

(** ** The [game] property *)

Lemma cached_set st g : _game (self st) = Some g -> cached st = st.
Proof.
  destruct st as [[app gid cache] w tr]; simpl; intros ->.
  reflexivity.
Qed.

Lemma game_run st : game st = (Ok (the_game st), cached st).
Proof.
  destruct st as [[app gid [g|]] w tr]; reflexivity.
Qed.

Lemma the_game_cached st : the_game (cached st) = the_game st.
Proof. reflexivity. Qed.

Lemma cached_cached st : cached (cached st) = cached st.
Proof. reflexivity. Qed.

(** Reading [self.game] again returns the same object and changes
    nothing. *)
Lemma game_twice st : (game;; game) st = game st.
Proof.
  unfold bind. rewrite game_run, game_run, the_game_cached, cached_cached.
  reflexivity.
Qed.

Lemma is_game_running_run st : is_game_running st = (Ok (running st), st).
Proof. reflexivity. Qed.

Lemma get_displayed_entries_run st :
  get_displayed_entries st =
  (Ok (list_to_map
         (displayed_items (the_game st) (running st) (world st))),
   cached st).
Proof.
  unfold get_displayed_entries, bind. rewrite game_run. reflexivity.
Qed.

Lemma lookup_list_to_map_assoc (l : list (string * bool)) (k : string) :
  (list_to_map l : gmap string bool) !! k = assoc k l.
Proof.
  induction l as [|[k' v] l IH]; simpl.
  - apply lookup_empty.
  - destruct (String.eqb_spec k' k) as [->|Hne].
    + apply lookup_insert_eq.
    + rewrite lookup_insert_ne by assumption. apply IH.
Qed.

Lemma Ok_lookup (d1 d2 : gmap string bool) (k : string) :
  Ok d1 = Ok d2 -> d1 !! k = d2 !! k.
Proof. intros [= ->]. reflexivity. Qed.

(** ** Visibility table *)

(** Splits hypotheses [a && b = true] and turns [negb a = true] into
    [a = false]. *)
Ltac split_true :=
  repeat match goal with
    | H : _ && _ = true |- _ => apply Bool.andb_true_iff in H as [? ?]
    | H : negb _ = true |- _ => apply Bool.negb_true_iff in H
    end.

Lemma displayed_keys g r w :
  (displayed_items g r w).*1 =
  [ "add"; "duplicate"; "install"; "play"; "update"; "install_dlcs";
    "stop"; "configure"; "browse"; "show_logs"; "favorite";
    "deletefavorite"; "install_more"; "execute-script";
    "desktop-shortcut"; "menu-shortcut"; "steam-shortcut";
    "rm-desktop-shortcut"; "rm-menu-shortcut"; "rm-steam-shortcut";
    "remove"; "view"; "hide"; "unhide" ].
Proof. reflexivity. Qed.

Lemma displayed_keys_NoDup g r w : NoDup (displayed_items g r w).*1.
Proof.
  rewrite displayed_keys. apply (bool_decide_unpack _). vm_compute. exact I.
Qed.

Lemma action_names_NoDup : NoDup action_names.
Proof. apply (bool_decide_unpack _). vm_compute. exact I. Qed.

(** C1. For every state (every game), [get_displayed_entries] returns a
    dictionary whose set of keys is the set of action names of
    [get_game_actions]; no action name and no key of the dictionary
    literal is repeated, so each action has exactly one visibility entry
    and each entry gates an action. *)
Theorem dispatch_table_fully_gated (st : State) :
  exists d : gmap string bool,
    fst (get_displayed_entries st) = Ok d /\
    dom d = (list_to_set action_names : gset string) /\
    NoDup action_names /\
    NoDup (displayed_items (the_game st) (running st) (world st)).*1.
Proof.
  rewrite get_displayed_entries_run. eexists; split; [reflexivity|].
  split; [|split; [apply action_names_NoDup | apply displayed_keys_NoDup]].
  rewrite dom_list_to_map_L, displayed_keys.
  apply set_eq. intros k.
  rewrite !elem_of_list_to_set.
  unfold action_names; simpl.
  rewrite !elem_of_cons, !elem_of_nil. tauto.
Qed.

(** The pairs of entries that contradict each other. *)
Definition exclusive_pairs : list (string * string) :=
  [ ("favorite", "deletefavorite"); ("hide", "unhide"); ("play", "stop");
    ("desktop-shortcut", "rm-desktop-shortcut");
    ("menu-shortcut", "rm-menu-shortcut");
    ("steam-shortcut", "rm-steam-shortcut");
    ("install", "install_more") ].

(** C6. In every state the dictionary of [get_displayed_entries] shows at
    most one member of each of the pairs (favorite, deletefavorite),
    (hide, unhide), (play, stop), (desktop-shortcut, rm-desktop-shortcut),
    (menu-shortcut, rm-menu-shortcut), (steam-shortcut, rm-steam-shortcut)
    and (install, install_more). *)
Theorem contradictory_entries_exclusive (st : State) :
  exists d : gmap string bool,
    fst (get_displayed_entries st) = Ok d /\
    forall a b, In (a, b) exclusive_pairs ->
      ~ (d !! a = Some true /\ d !! b = Some true).
Proof.
  rewrite get_displayed_entries_run. eexists; split; [reflexivity|].
  intros a b Hin [Ha Hb].
  rewrite lookup_list_to_map_assoc in Ha, Hb.
  simpl in Hin.
  repeat (destruct Hin as [Heq|Hin]; [inversion Heq; subst; clear Heq|]);
    try contradiction; simpl in Ha, Hb;
    injection Ha as Ha; injection Hb as Hb; split_true; congruence.
Qed.

(** ** What the visibility table depends on *)

(** The game state flags: installed, updatable, favorite, hidden, service,
    runner name, and the running status. *)
Definition same_flags (st1 st2 : State) : Prop :=
  let g1 := the_game st1 in
  let g2 := the_game st2 in
  Game.is_installed g1 = Game.is_installed g2 /\
  Game.is_updatable g1 = Game.is_updatable g2 /\
  Game.is_favorite g1 = Game.is_favorite g2 /\
  Game.is_hidden g1 = Game.is_hidden g2 /\
  Game.service g1 = Game.service g2 /\
  Game.runner_name g1 = Game.runner_name g2 /\
  running st1 = running st2.

(** What the table reads besides the flags: the launcher files, Steam's
    shortcut list and the runner's configured script. *)
Definition same_outside (st1 st2 : State) : Prop :=
  let g1 := the_game st1 in
  let g2 := the_game st2 in
  let w1 := world st1 in
  let w2 := world st2 in
  desktop_launcher_exists w1 (Game.slug g1) (Game.id g1) =
    desktop_launcher_exists w2 (Game.slug g2) (Game.id g2) /\
  menu_launcher_exists w1 (Game.slug g1) (Game.id g1) =
    menu_launcher_exists w2 (Game.slug g2) (Game.id g2) /\
  shortcut_exists w1 g1 = shortcut_exists w2 g2 /\
  is_steam_game w1 g1 = is_steam_game w2 g2 /\
  has_manual_command g1 = has_manual_command g2.

Definition outside_keys : list string :=
  [ "execute-script"; "desktop-shortcut"; "menu-shortcut"; "steam-shortcut";
    "rm-desktop-shortcut"; "rm-menu-shortcut"; "rm-steam-shortcut" ].

(** The sample state, with a desktop launcher on disk for every game. *)
Definition sample_state_with_launcher : State :=
  let w := sample_world in
  mkState (self sample_state)
    (mkWorld (fun _ _ => true) (menu_launcher_exists w)
       (shortcut_exists w) (is_steam_game w) (files w) (loadable w)
       (datapath_get w) (Game_init w) (pga w) (get_unusued_game_name w)
       (duplicate_game_config w) (question_yes w) (add_game_returns w))
    (trace sample_state).

(** C3, as stated, fails: two states whose game has the same flags and the
    same running status, and that differ only in whether a desktop
    launcher file exists, get different dictionaries. *)
Lemma displayed_entries_not_flags_alone :
  ~ (forall st1 st2 : State,
       same_flags st1 st2 ->
       fst (get_displayed_entries st1) = fst (get_displayed_entries st2)).
Proof.
  intros H.
  specialize (H sample_state sample_state_with_launcher).
  rewrite (get_displayed_entries_run sample_state) in H.
  rewrite (get_displayed_entries_run sample_state_with_launcher) in H.
  unfold fst in H.
  assert (Hf : same_flags sample_state sample_state_with_launcher).
  { unfold same_flags. repeat split. }
  specialize (H Hf).
  apply (Ok_lookup _ _ "desktop-shortcut") in H.
  rewrite 2 lookup_list_to_map_assoc in H.
  vm_compute in H. discriminate H.
Qed.

(** C3, amended. The flags alone determine every entry other than
    execute-script and the six shortcut entries; those seven also read the
    runner's configured script, the launcher files and Steam's shortcut
    list, and when these answers agree as well the two dictionaries are
    equal. *)
Theorem displayed_entries_determined (st1 st2 : State) :
  same_flags st1 st2 ->
  exists d1 d2 : gmap string bool,
    fst (get_displayed_entries st1) = Ok d1 /\
    fst (get_displayed_entries st2) = Ok d2 /\
    (forall k, ~ In k outside_keys -> d1 !! k = d2 !! k) /\
    (same_outside st1 st2 -> d1 = d2).
Proof.
  intros (Hi & Hu & Hf & Hh & Hs & Hr & Hrun).
  rewrite !get_displayed_entries_run. do 2 eexists.
  split; [reflexivity|]. split; [reflexivity|]. split.
  - intros k Hk. rewrite !lookup_list_to_map_assoc.
    assert (Hk' : existsb (String.eqb k) outside_keys = false).
    { apply Bool.not_true_is_false. intros E. apply Hk.
      apply existsb_exists in E as (x & Hx & E).
      apply String.eqb_eq in E. subst x. exact Hx. }
    unfold displayed_items, assoc.
    rewrite Hi, Hu, Hf, Hh, Hs, Hr, Hrun.
    repeat match goal with
      | |- context [String.eqb ?a k] =>
          destruct (String.eqb_spec a k) as [<-|_];
          [first [discriminate Hk' | reflexivity]|]
      end.
    reflexivity.
  - intros (Hd & Hm & Hsc & Hst & Hmc).
    unfold displayed_items.
    rewrite Hi, Hu, Hf, Hh, Hs, Hr, Hrun, Hd, Hm, Hsc, Hst, Hmc.
    reflexivity.
Qed.

(** Another game with the flags of the sample game (installed, not
    updatable, not a favorite, not hidden, no service, runner "linux", not
    running), without a runner script, in a world where every game has a
    desktop launcher. *)
Definition other_state : State :=
  mkState
    (mkGameActions sample_app (IdInt 12)
       (Some (Game.mk (IdInt 12) "doom" "Doom" true false false false None
                "linux" None None "/opt/doom" None None)))
    (world sample_state_with_launcher) [].

Lemma displayed_entries_determined_witness :
  same_flags sample_state other_state /\
  exists d1 d2 : gmap string bool,
    fst (get_displayed_entries sample_state) = Ok d1 /\
    fst (get_displayed_entries other_state) = Ok d2 /\
    (forall k, ~ In k outside_keys -> d1 !! k = d2 !! k) /\
    (same_outside sample_state other_state -> d1 = d2).
Proof.
  split; [unfold same_flags; repeat split|].
  apply (displayed_entries_determined sample_state other_state).
  unfold same_flags; repeat split.
Defined.

(** ** Running the callbacks *)

Definition add_events (st : State) (l : list Event) : State :=
  mkState (self st) (world st) (trace st ++ l).

Lemma trace_add_events st l :
  trace (add_events st l) = (trace st ++ l)%list.
Proof. reflexivity. Qed.

Lemma trace_cached st : trace (cached st) = trace st.
Proof. reflexivity. Qed.

Lemma the_game_add_events st l : the_game (add_events st l) = the_game st.
Proof. reflexivity. Qed.

Lemma emit_run e st : emit e st = (Ok tt, add_events st [e]).
Proof. reflexivity. Qed.

(** Unfolds a callback that starts by reading [self.game]. *)
Ltac run_game cb := unfold cb, bind; rewrite game_run; cbv beta iota.

Lemma on_game_launch_run st :
  on_game_launch st =
  (Ok tt, add_events (cached st) [GameLaunch (the_game st)]).
Proof. run_game on_game_launch. reflexivity. Qed.

(** Whether the game's id, as a string, is among the running game ids. *)
Definition in_running_ids (st : State) : bool :=
  existsb (fun i => String.eqb (py_str i) (py_str (Game.id (the_game st))))
    (get_running_game_ids (application (self st))).

Lemma get_running_game_loop_run ids st :
  get_running_game_loop ids st =
  if existsb
       (fun i => String.eqb (py_str i) (py_str (Game.id (the_game st)))) ids
  then (Ok (Some (the_game st)), cached st)
  else (Ok None, match ids with [] => st | _ => cached st end).
Proof.
  revert st. induction ids as [|i rest IH]; intros st; [reflexivity|].
  cbn [get_running_game_loop existsb]. unfold bind. rewrite game_run.
  cbv beta iota.
  destruct (String.eqb (py_str i) (py_str (Game.id (the_game st)))); simpl.
  - reflexivity.
  - rewrite IH, the_game_cached, cached_cached.
    destruct (existsb _ rest); [reflexivity|].
    destruct rest; reflexivity.
Qed.

Lemma on_game_stop_run st :
  let ids := get_running_game_ids (application (self st)) in
  on_game_stop st =
  if in_running_ids st
  then (Ok tt, add_events (cached st) [GameForceStop (the_game st)])
  else (Ok tt,
        add_events (match ids with [] => st | _ => cached st end)
          [LoggerWarning (GameNotIn (game_id (self st)) ids)]).
Proof.
  unfold on_game_stop, get_running_game, bind, get_self, in_running_ids.
  cbv beta iota. rewrite get_running_game_loop_run.
  destruct (existsb _ _); [reflexivity|].
  destruct (get_running_game_ids _); reflexivity.
Qed.

Lemma on_show_logs_run st :
  let g := the_game st in
  on_show_logs st =
  (Ok tt,
   add_events (cached st)
     (match Game.log_buffer g with
      | None => [LoggerInfo (NoLogForGame g)]
      | Some _ => []
      end ++ [LogWindow g (Game.log_buffer g)])).
Proof.
  run_game on_show_logs.
  destruct (Game.log_buffer (the_game st)); [reflexivity|].
  unfold add_events, emit. simpl. rewrite <- app_assoc. reflexivity.
Qed.

Lemma on_install_clicked_run st :
  let g := the_game st in
  on_install_clicked st =
  if String.eqb (Game.slug g) ""
  then (Raise (RuntimeError ("No game to install: " ++ py_str (Game.id g))),
        cached st)
  else (Ok tt, add_events (cached st) [GameEmit g "game-install"]).
Proof.
  run_game on_install_clicked.
  destruct (String.eqb _ _); reflexivity.
Qed.

Lemma on_update_clicked_run st :
  on_update_clicked st =
  (Ok tt,
   add_events (cached st) [GameEmit (the_game st) "game-install-update"]).
Proof. run_game on_update_clicked. reflexivity. Qed.

Lemma on_install_dlc_clicked_run st :
  on_install_dlc_clicked st =
  (Ok tt, add_events (cached st) [GameEmit (the_game st) "game-install-dlc"]).
Proof. run_game on_install_dlc_clicked. reflexivity. Qed.

Lemma on_add_manually_run st :
  let g := the_game st in
  on_add_manually st =
  (Ok tt,
   add_events (cached st) [AddGameDialog g (Some (Game.runner_name g))]).
Proof. run_game on_add_manually. reflexivity. Qed.

Lemma on_edit_game_configuration_run st :
  on_edit_game_configuration st =
  (Ok tt, add_events (cached st) [ShowEditGameConfigDialog (the_game st)]).
Proof. run_game on_edit_game_configuration. reflexivity. Qed.

Lemma on_add_favorite_game_run st :
  let g := the_game st in
  on_add_favorite_game st =
  (Ok tt, add_events (cached st) [GameAddToFavorites g]).
Proof. run_game on_add_favorite_game. reflexivity. Qed.

Lemma on_delete_favorite_game_run st :
  let g := the_game st in
  on_delete_favorite_game st =
  (Ok tt, add_events (cached st) [GameRemoveFromFavorites g]).
Proof. run_game on_delete_favorite_game. reflexivity. Qed.

Lemma on_hide_game_run st :
  let g := the_game st in
  on_hide_game st =
  (Ok tt, add_events (cached st) [GameSetHidden g true]).
Proof. run_game on_hide_game. reflexivity. Qed.

Lemma on_unhide_game_run st :
  let g := the_game st in
  on_unhide_game st =
  (Ok tt, add_events (cached st) [GameSetHidden g false]).
Proof. run_game on_unhide_game. reflexivity. Qed.

Lemma on_browse_files_run st :
  let g := the_game st in
  let path := Game.browse_dir g in
  on_browse_files st =
  (Ok tt,
   add_events (cached st)
     [ if negb (truthy path) then NoticeDialog NoInstallDir
       else if path_exists (world st) path false
            then SystemExecute ["xdg-open"; "file://" ++ default "" path]
            else NoticeDialog (FolderMissing (default "" path)) ]).
Proof.
  run_game on_browse_files. unfold get_world. cbv beta iota.
  change (world (cached st)) with (world st).
  destruct (negb _); [reflexivity|].
  destruct (path_exists _ _ _); reflexivity.
Qed.

Lemma on_create_menu_shortcut_run st :
  let g := the_game st in
  on_create_menu_shortcut st =
  (Ok tt,
   add_events (cached st)
     [CreateLauncher (Game.slug g) (Game.id g) (Game.name g) false true]).
Proof. run_game on_create_menu_shortcut. reflexivity. Qed.

Lemma on_create_desktop_shortcut_run st :
  let g := the_game st in
  on_create_desktop_shortcut st =
  (Ok tt,
   add_events (cached st)
     [CreateLauncher (Game.slug g) (Game.id g) (Game.name g) true false]).
Proof. run_game on_create_desktop_shortcut. reflexivity. Qed.

Lemma on_create_steam_shortcut_run st :
  on_create_steam_shortcut st =
  (Ok tt, add_events (cached st) [SteamCreateShortcut (the_game st)]).
Proof. run_game on_create_steam_shortcut. reflexivity. Qed.

Lemma on_remove_menu_shortcut_run st :
  let g := the_game st in
  on_remove_menu_shortcut st =
  (Ok tt,
   add_events (cached st)
     [RemoveLauncher (Game.slug g) (Game.id g) false true]).
Proof. run_game on_remove_menu_shortcut. reflexivity. Qed.

Lemma on_remove_desktop_shortcut_run st :
  let g := the_game st in
  on_remove_desktop_shortcut st =
  (Ok tt,
   add_events (cached st)
     [RemoveLauncher (Game.slug g) (Game.id g) true false]).
Proof. run_game on_remove_desktop_shortcut. reflexivity. Qed.

Lemma on_remove_steam_shortcut_run st :
  on_remove_steam_shortcut st =
  (Ok tt, add_events (cached st) [SteamRemoveShortcut (the_game st)]).
Proof. run_game on_remove_steam_shortcut. reflexivity. Qed.

Lemma on_view_game_run st :
  on_view_game st =
  (Ok tt,
   add_events (cached st)
     [SystemExecute
        ["xdg-open"; "https://lutris.net/games/" ++ Game.slug (the_game st)]]).
Proof. run_game on_view_game. reflexivity. Qed.

Lemma on_remove_game_run st :
  let g := the_game st in
  on_remove_game st =
  (Ok tt,
   add_events (cached st)
     [ if Game.is_installed g then UninstallGameDialog (Game.id g)
       else RemoveGameDialog (Game.id g) ]).
Proof.
  run_game on_remove_game. destruct (Game.is_installed _); reflexivity.
Qed.

Lemma on_execute_script_clicked_run st :
  let g := the_game st in
  on_execute_script_clicked st =
  match Game.runner g with
  | None => (Raise AttributeError, cached st)
  | Some r =>
      match system_config r !! "manual_command" with
      | Some cmd =>
          if path_exists (world st) (Some cmd) false
          then (Ok tt,
                add_events (cached st)
                  [ MonitoredCommandStart [cmd] [basename cmd]
                      (Game.directory g);
                    LoggerInfo (RunningInBackground cmd) ])
          else (Ok tt, cached st)
      | None => (Ok tt, cached st)
      end
  end.
Proof.
  run_game on_execute_script_clicked.
  destruct (Game.runner (the_game st)) as [r|]; [|reflexivity].
  unfold get_world. cbv beta iota.
  change (world (cached st)) with (world st).
  destruct (system_config r !! "manual_command") as [cmd|]; [|reflexivity].
  destruct (path_exists _ _ _); [|reflexivity].
  unfold emit, add_events. simpl. rewrite <- app_assoc. reflexivity.
Qed.

(** ** Duplicating a game *)

(** The keyword arguments [on_game_duplicate] hands to [add_game]. *)
Definition duplicate_fields (w : World) (g : Game.t)
    (orig : gmap string PyVal) : gmap string PyVal :=
  let new_config_id :=
    if truthy (Game.game_config_id g)
    then Some (duplicate_game_config w (Game.slug g)
                 (default "" (Game.game_config_id g)))
    else None in
  delete "service_id"
    (delete "service"
       (delete "id"
          (<["configpath" := val_of_opt new_config_id]>
             (<["name" := VStr (get_unusued_game_name w (Game.name g))]>
                orig)))).

(** Reduces the monad operations and the projections of built records,
    and nothing of the dictionaries. *)
Ltac step_m :=
  cbv beta iota zeta delta
    [bind ret raise emit get_world get_self set__game add_game
     add_events cached negb];
  cbn [world self trace pga fst snd application game_id _game
       desktop_launcher_exists menu_launcher_exists shortcut_exists
       is_steam_game files loadable datapath_get Game_init
       get_unusued_game_name duplicate_game_config question_yes
       add_game_returns].

(** The events of a confirmed duplication of a game whose record has an
    id. *)
Definition duplicate_events (w : World) (g : Game.t)
    (orig : gmap string PyVal) : list Event :=
  let fields := duplicate_fields w g orig in
  QuestionDialog (Game.name g) ::
  (if truthy (Game.game_config_id g)
   then [DuplicateGameConfig (Game.slug g)
           (default "" (Game.game_config_id g))]
   else []) ++
  [DbAddGame fields; GameSave (add_game_returns w fields)].

Lemma on_game_duplicate_confirmed st :
  let orig := get_game_by_field (world st) (Game.id (the_game st)) "id" in
  question_yes (world st) = true ->
  is_Some (orig !! "id") ->
  on_game_duplicate st =
  (Ok tt,
   add_events (cached st) (duplicate_events (world st) (the_game st) orig)).
Proof.
  cbv zeta. intros Hyes [v Hv].
  unfold on_game_duplicate, bind at 1. rewrite game_run.
  unfold duplicate_events, duplicate_fields. step_m. rewrite Hyes.
  destruct (Game.game_config_id (the_game st)) as [old|];
    [destruct (truthy (Some old)) eqn:Ht|]; step_m;
    rewrite !lookup_insert_ne by discriminate; rewrite Hv; step_m;
    rewrite <- ?app_assoc; cbn [app]; reflexivity.
Qed.

(** ** Wiring of the menu actions *)

(** Evaluates [invoke] on an action whose callback is [cb], with the
    lemma [lem] that runs [cb]. *)
Ltac invoke_with cb lem :=
  unfold invoke; change (callback_of _) with (Some cb); cbv beta iota;
  unfold events_of; rewrite lem; cbn [fst snd];
  rewrite ?trace_add_events, ?trace_cached,
    ?drop_app_length.

(** An argument of a call of the shortcut helpers. *)
Inductive Arg :=
| ArgStr (s : string)
| ArgId (i : PyId)
| ArgGame (g : Game.t)
| ArgKeyword (keyword : string) (value : bool).

(** The arguments of the calls of [xdgshortcuts] and [steam_shortcut], as
    the callbacks write them: the positional ones, then [desktop=True] or
    [menu=True]. *)
Definition call_arguments (e : Event) : list Arg :=
  let keywords (desktop menu : bool) : list Arg :=
    ((if desktop then [ArgKeyword "desktop" true] else []) ++
     (if menu then [ArgKeyword "menu" true] else []))%list in
  match e with
  | CreateLauncher slug game_id name desktop menu =>
      ([ArgStr slug; ArgId game_id; ArgStr name] ++ keywords desktop menu)%list
  | RemoveLauncher slug game_id desktop menu =>
      ([ArgStr slug; ArgId game_id] ++ keywords desktop menu)%list
  | SteamCreateShortcut g => [ArgGame g]
  | SteamRemoveShortcut g => [ArgGame g]
  | _ => []
  end.

Definition shortcut_actions : list string :=
  [ "desktop-shortcut"; "menu-shortcut"; "steam-shortcut";
    "rm-desktop-shortcut"; "rm-menu-shortcut"; "rm-steam-shortcut" ].

(** The claim about the shortcut callbacks, in its own words: each makes
    one call, with the game's slug, id and name. *)
Definition shortcuts_pass_slug_id_name : Prop :=
  forall (st : State) (action : string),
    In action shortcut_actions ->
    exists e rest,
      invoke action st = Some (Ok tt, [e]) /\
      call_arguments e =
        ([ ArgStr (Game.slug (the_game st)); ArgId (Game.id (the_game st));
           ArgStr (Game.name (the_game st)) ] ++ rest)%list.

(** C8, as stated, fails: removing the desktop shortcut of the sample game
    calls [remove_launcher] with its slug and id and [desktop=True], and
    not with its name. *)
Lemma remove_launcher_gets_no_name :
  invoke "rm-desktop-shortcut" sample_state =
    Some (Ok tt, [RemoveLauncher "quake" (IdInt 7) true false]) /\
  call_arguments (RemoveLauncher "quake" (IdInt 7) true false) =
    [ArgStr "quake"; ArgId (IdInt 7); ArgKeyword "desktop" true] /\
  ~ shortcuts_pass_slug_id_name.
Proof.
  assert (Hinv : invoke "rm-desktop-shortcut" sample_state =
                 Some (Ok tt, [RemoveLauncher "quake" (IdInt 7) true false])).
  { invoke_with on_remove_desktop_shortcut on_remove_desktop_shortcut_run.
    reflexivity. }
  split; [exact Hinv|]. split; [reflexivity|].
  intros H.
  destruct (H sample_state "rm-desktop-shortcut") as (e & rest & He & Hargs).
  { do 3 right. left. reflexivity. }
  rewrite Hinv in He. injection He as <-.
  cbn [call_arguments app] in Hargs. discriminate Hargs.
Qed.

(** C8, amended. For every state, with [g] the selected game: play calls
    [g.launch()]; stop calls [g.force_stop()] when the game's id is among
    the application's running game ids and otherwise only logs a warning;
    favorite and deletefavorite call [add_to_favorites] and
    [remove_from_favorites]; hide and unhide call [set_hidden(True)] and
    [set_hidden(False)]; the desktop and menu shortcut actions call
    [xdgshortcuts.create_launcher] with the game's slug, id and name and
    [desktop=True], respectively [menu=True]; their removals call
    [xdgshortcuts.remove_launcher] with the game's slug and id and the
    same flag, and no name; the Steam actions call
    [steam_shortcut.create_shortcut] and [remove_shortcut] with the game
    object. Each does nothing else. *)
Theorem menu_actions_wired (st : State) :
  let g := the_game st in
  let ids := get_running_game_ids (application (self st)) in
  invoke "play" st = Some (Ok tt, [GameLaunch g]) /\
  invoke "stop" st =
    Some (Ok tt,
          if in_running_ids st then [GameForceStop g]
          else [LoggerWarning (GameNotIn (game_id (self st)) ids)]) /\
  invoke "favorite" st = Some (Ok tt, [GameAddToFavorites g]) /\
  invoke "deletefavorite" st = Some (Ok tt, [GameRemoveFromFavorites g]) /\
  invoke "hide" st = Some (Ok tt, [GameSetHidden g true]) /\
  invoke "unhide" st = Some (Ok tt, [GameSetHidden g false]) /\
  invoke "desktop-shortcut" st =
    Some (Ok tt,
          [CreateLauncher (Game.slug g) (Game.id g) (Game.name g)
             true false]) /\
  invoke "menu-shortcut" st =
    Some (Ok tt,
          [CreateLauncher (Game.slug g) (Game.id g) (Game.name g)
             false true]) /\
  invoke "steam-shortcut" st = Some (Ok tt, [SteamCreateShortcut g]) /\
  invoke "rm-desktop-shortcut" st =
    Some (Ok tt, [RemoveLauncher (Game.slug g) (Game.id g) true false]) /\
  invoke "rm-menu-shortcut" st =
    Some (Ok tt, [RemoveLauncher (Game.slug g) (Game.id g) false true]) /\
  invoke "rm-steam-shortcut" st = Some (Ok tt, [SteamRemoveShortcut g]).
Proof.
  intros g ids. subst g ids.
  split; [invoke_with on_game_launch on_game_launch_run; reflexivity|].
  split.
  { invoke_with on_game_stop on_game_stop_run.
    destruct (in_running_ids st); cbn [fst snd];
      rewrite trace_add_events; [rewrite trace_cached|];
      try (destruct (get_running_game_ids _); rewrite ?trace_cached);
      rewrite drop_app_length; reflexivity. }
  split;
    [invoke_with on_add_favorite_game on_add_favorite_game_run; reflexivity|].
  split;
    [invoke_with on_delete_favorite_game on_delete_favorite_game_run;
     reflexivity|].
  split; [invoke_with on_hide_game on_hide_game_run; reflexivity|].
  split; [invoke_with on_unhide_game on_unhide_game_run; reflexivity|].
  split;
    [invoke_with on_create_desktop_shortcut on_create_desktop_shortcut_run;
     reflexivity|].
  split;
    [invoke_with on_create_menu_shortcut on_create_menu_shortcut_run;
     reflexivity|].
  split;
    [invoke_with on_create_steam_shortcut on_create_steam_shortcut_run;
     reflexivity|].
  split;
    [invoke_with on_remove_desktop_shortcut on_remove_desktop_shortcut_run;
     reflexivity|].
  split;
    [invoke_with on_remove_menu_shortcut on_remove_menu_shortcut_run;
     reflexivity|].
  invoke_with on_remove_steam_shortcut on_remove_steam_shortcut_run;
    reflexivity.
Qed.

(** ** Script execution *)

(** The [manual_command] that the game's runner is configured with. *)
Definition manual_command_of (g : Game.t) : option string :=
  match Game.runner g with
  | Some r => system_config r !! "manual_command"
  | None => None
  end.

(** A world without any file. *)
Definition empty_disk_world : World :=
  let w := sample_world in
  mkWorld (desktop_launcher_exists w) (menu_launcher_exists w)
    (shortcut_exists w) (is_steam_game w) (fun _ => None) (loadable w)
    (datapath_get w) (Game_init w) (pga w) (get_unusued_game_name w)
    (duplicate_game_config w) (question_yes w) (add_game_returns w).

(** A [GameActions] on which only the id of the sample game was set, as
    after [set_game(game_id=7)], while the application runs that game;
    the script of its runner is not on disk. *)
Definition uncached_state : State :=
  mkState
    (mkGameActions
       {| get_game_by_id := fun _ => Some sample_game;
          get_running_game_ids := [IdInt 7] |}
       (IdInt 7) None)
    empty_disk_world [].

(** C7, as stated, fails: with the script missing, the callback starts
    nothing but does not leave everything as it was: it has read
    [self.game], which stores the game it found in [self._game]. *)
Lemma execute_script_fills_cache :
  path_exists (world uncached_state)
    (manual_command_of (the_game uncached_state)) false = false /\
  on_execute_script_clicked uncached_state =
    (Ok tt, cached uncached_state) /\
  _game (self uncached_state) = None /\
  _game (self (cached uncached_state)) = Some sample_game /\
  ~ (forall st : State,
       path_exists (world st) (manual_command_of (the_game st)) false
         = false ->
       on_execute_script_clicked st = (Ok tt, st)).
Proof.
  split; [reflexivity|].
  assert (Hrun : on_execute_script_clicked uncached_state =
                 (Ok tt, cached uncached_state)).
  { rewrite on_execute_script_clicked_run. reflexivity. }
  split; [exact Hrun|]. split; [reflexivity|]. split; [reflexivity|].
  intros H. specialize (H uncached_state eq_refl).
  rewrite Hrun in H. injection H as H. discriminate H.
Qed.

(** C7, amended. For a game that has a runner,
    [on_execute_script_clicked] starts the command exactly when
    [path_exists] holds of the runner's configured [manual_command]: it
    then starts one [MonitoredCommand] on that path, in the game's
    directory, and logs that it runs in the background, reading no result
    back; when the path does not exist it starts nothing, logs nothing and
    shows nothing. In both cases the one other change is that the game
    read through [self.game] is now cached in [self._game], which is no
    change when a game was set. *)
Theorem execute_script_guarded (st : State) (r : Runner) :
  Game.runner (the_game st) = Some r ->
  let g := the_game st in
  let manual_command := system_config r !! "manual_command" in
  let cmd := default "" manual_command in
  on_execute_script_clicked st =
    (if path_exists (world st) manual_command false
     then (Ok tt,
           add_events (cached st)
             [ MonitoredCommandStart [cmd] [basename cmd] (Game.directory g);
               LoggerInfo (RunningInBackground cmd) ])
     else (Ok tt, cached st)) /\
  (forall g0, _game (self st) = Some g0 -> cached st = st).
Proof.
  intros Hr. cbv zeta. split; [|intros g0; apply cached_set].
  rewrite on_execute_script_clicked_run. cbv zeta. rewrite Hr.
  destruct (system_config r !! "manual_command") as [cmd|]; reflexivity.
Qed.

Lemma execute_script_guarded_witness :
  Game.runner (the_game sample_state) =
    Some {| system_config :=
              {["manual_command" := "/opt/quake/run.sh"]} |} /\
  on_execute_script_clicked sample_state =
    (Ok tt,
     add_events sample_state
       [ MonitoredCommandStart ["/opt/quake/run.sh"] ["run.sh"] "/opt/quake";
         LoggerInfo (RunningInBackground "/opt/quake/run.sh") ]).
Proof.
  split; [reflexivity|].
  destruct (execute_script_guarded sample_state
              {| system_config :=
                   {["manual_command" := "/opt/quake/run.sh"]} |} eq_refl)
    as [H _].
  rewrite H. vm_compute. reflexivity.
Defined.

(** ** Exceptions raised by the callbacks *)

(** A [GameActions] object on which no game was set: [game_id] is [None]
    and [self.game] is a new, empty [Game(None)]. *)
Definition unset_state : State :=
  mkState (mkGameActions sample_app IdNone None) sample_world [].

(** Tries each of the run lemmas of the callbacks. *)
Ltac rewrite_run :=
  first
    [ rewrite on_game_launch_run | rewrite on_game_stop_run
    | rewrite on_install_clicked_run | rewrite on_update_clicked_run
    | rewrite on_install_dlc_clicked_run | rewrite on_show_logs_run
    | rewrite on_add_manually_run | rewrite on_edit_game_configuration_run
    | rewrite on_add_favorite_game_run | rewrite on_delete_favorite_game_run
    | rewrite on_execute_script_clicked_run | rewrite on_browse_files_run
    | rewrite on_create_desktop_shortcut_run
    | rewrite on_remove_desktop_shortcut_run
    | rewrite on_create_menu_shortcut_run
    | rewrite on_remove_menu_shortcut_run
    | rewrite on_create_steam_shortcut_run
    | rewrite on_remove_steam_shortcut_run
    | rewrite on_remove_game_run | rewrite on_view_game_run
    | rewrite on_hide_game_run | rewrite on_unhide_game_run ].

(** C2, as stated, fails: on a [GameActions] with no game set, the install
    callback raises [RuntimeError] to its caller. *)
Lemma install_callback_raises :
  invoke "install" unset_state =
    Some (Raise (RuntimeError "No game to install: None"), []) /\
  ~ (forall (st : State) name label (cb : M unit),
       In (name, label, cb) get_game_actions -> is_ok (fst (cb st)) = true).
Proof.
  split; [vm_compute; reflexivity|].
  intros H.
  specialize (H unset_state "install" "Install" on_install_clicked).
  assert (Hin : In ("install", "Install", on_install_clicked)
                  get_game_actions)
    by (right; right; left; reflexivity).
  specialize (H Hin). vm_compute in H. discriminate H.
Qed.

Definition is_install (action : string) : bool :=
  String.eqb action "install" || String.eqb action "install_more".

(** C2, amended. Leaving aside execute-script and duplicate, a callback of
    [get_game_actions] raises in exactly one case: install and
    install_more ([on_install_clicked]) raise [RuntimeError] when the
    game's slug is empty; in every other case the callback returns
    normally. *)
Theorem callbacks_raise_only_on_install (st : State) name label
    (cb : M unit) :
  In (name, label, cb) get_game_actions ->
  name <> "execute-script" ->
  name <> "duplicate" ->
  fst (cb st) =
    if is_install name && String.eqb (Game.slug (the_game st)) ""
    then Raise (RuntimeError
                  ("No game to install: " ++ py_str (Game.id (the_game st))))
    else Ok tt.
Proof.
  intros Hin Hx Hd. unfold get_game_actions in Hin. simpl in Hin.
  repeat (destruct Hin as [Heq|Hin];
          [injection Heq as <- <- <-;
           try (exfalso; apply Hx; reflexivity);
           try (exfalso; apply Hd; reflexivity);
           rewrite_run; cbv zeta|]);
    try contradiction;
    try reflexivity.
  - destruct (in_running_ids st); reflexivity.
  - cbn [is_install String.eqb Ascii.eqb Bool.eqb orb andb].
    destruct (String.eqb (Game.slug (the_game st)) ""); reflexivity.
  - cbn [is_install String.eqb Ascii.eqb Bool.eqb orb andb].
    destruct (String.eqb (Game.slug (the_game st)) ""); reflexivity.
Qed.

Lemma callbacks_raise_only_on_install_witness :
  In ("play", "Play", on_game_launch) get_game_actions /\
  "play" <> "execute-script" /\
  "play" <> "duplicate" /\
  fst (on_game_launch sample_state) = Ok tt.
Proof.
  split; [left; reflexivity|].
  split; [discriminate|]. split; [discriminate|].
  apply (callbacks_raise_only_on_install sample_state "play" "Play"
           on_game_launch).
  - left; reflexivity.
  - discriminate.
  - discriminate.
Defined.

(** ** Loading pixbufs *)

(** The files a pixbuf was made from. *)
Fixpoint Pixbuf_files (p : Pixbuf) : list string :=
  match p with
  | new_from_file_at_size f _ _ => [f]
  | scale_simple src _ _ => Pixbuf_files src
  | copy src => Pixbuf_files src
  | composite src dest _ _ _ _ _ _ _ _ _ =>
      Pixbuf_files src ++ Pixbuf_files dest
  end.

Definition overlay_path (w : World) : string :=
  path_join (datapath_get w) "media/unavailable.png".

(** The unavailable overlay at a size: [get_overlay(overlay, size).copy()]. *)
Definition overlay_pixbuf (w : World) (size : Z * Z) : Pixbuf :=
  copy (scale_simple
          (new_from_file_at_size (overlay_path w) (fst size) (snd size))
          (fst size) (snd size)).

(** [pixbuf] composited onto the unavailable overlay. *)
Definition on_overlay (w : World) (size : Z * Z) (pixbuf : Pixbuf) : Pixbuf :=
  composite pixbuf (overlay_pixbuf w size)
    0 0 (fst size) (snd size) 0 0 1 1 100.

(** The fallback in use: the given one, or the default icon or banner. *)
Definition fallback_path (w : World) (size : Z * Z)
    (fallback : option string) : string :=
  if truthy fallback then default "" fallback else get_default_icon w size.

(** The claim, in its own words: the file the returned pixbuf shows is
    [image] when that file exists and loads, and otherwise the fallback in
    use. *)
Definition claimed_file (w : World) (image : string) (size : Z * Z)
    (fallback : option string) : string :=
  if path_exists w (Some image) true && loadable w image then image
  else fallback_path w size fallback.

Definition fallback_chain_claim : Prop :=
  forall (st : State) image size fallback is_installed,
  exists p,
    fst (get_pixbuf image size fallback is_installed st) = Ok p /\
    In (claimed_file (world st) image size fallback) (Pixbuf_files p) /\
    (is_installed = false -> In (overlay_path (world st)) (Pixbuf_files p)).

(** A world whose cover file is there but cannot be decoded, and that has
    a fallback image. *)
Definition corrupt_cover_world : World :=
  let w := sample_world in
  mkWorld (desktop_launcher_exists w) (menu_launcher_exists w)
    (shortcut_exists w) (is_steam_game w)
    (fun p => if String.eqb p "/covers/fallback.png" then Some 700%Z
              else files w p)
    (fun p => negb (String.eqb p "/covers/quake.jpg"))
    (datapath_get w) (Game_init w) (pga w) (get_unusued_game_name w)
    (duplicate_game_config w) (question_yes w) (add_game_returns w).

Definition corrupt_cover_state : State :=
  mkState (self sample_state) corrupt_cover_world [].

(** C5, as stated, fails. A cover file that exists but does not decode is
    not replaced by the fallback: the error is logged and the bare
    unavailable overlay is returned, for an installed game too. A fallback
    that is not on disk gives the bare overlay as well. *)
Lemma get_pixbuf_not_total_chain :
  get_pixbuf "/covers/quake.jpg" (32, 32)%Z (Some "/covers/fallback.png")
    true corrupt_cover_state =
  (Ok (overlay_pixbuf corrupt_cover_world (32, 32)%Z),
   add_events corrupt_cover_state
     [LoggerError (UnableToLoadIcon "/covers/quake.jpg")]) /\
  fst (get_pixbuf "/covers/none.jpg" (32, 32)%Z (Some "/covers/gone.png")
         true sample_state) =
  Ok (overlay_pixbuf sample_world (32, 32)%Z) /\
  ~ fallback_chain_claim.
Proof.
  split; [vm_compute; reflexivity|]. split; [vm_compute; reflexivity|].
  intros H.
  destruct (H corrupt_cover_state "/covers/quake.jpg" (32, 32)%Z
              (Some "/covers/fallback.png") true) as (p & Hp & Hin & _).
  vm_compute in Hp. injection Hp as <-.
  vm_compute in Hin. destruct Hin as [Hin|[]]. discriminate Hin.
Qed.

(** C5, amended. Provided the unavailable overlay decodes, and the
    fallback in use decodes when it is on disk:
    - when the file [image] exists, is not empty and decodes, an installed
      game gets it scaled to exactly [size], and a game that is not
      installed gets it composited onto the unavailable overlay;
    - when [image] exists but does not decode, the error is logged and the
      bare unavailable overlay is returned;
    - when [image] does not exist (or is empty), the given fallback or,
      absent one, the default icon (square size) or default banner (other
      sizes) takes its place if that file is on disk: scaled to [size] for
      an installed game, composited onto the overlay otherwise; if it is
      not on disk the bare overlay is returned. *)
Theorem get_pixbuf_fallback_chain (st : State) (image : string)
    (size : Z * Z) (fallback : option string) (is_installed : bool) :
  let w := world st in
  let fb := fallback_path w size fallback in
  let shown (p : Pixbuf) :=
    if is_installed then scale_simple p (fst size) (snd size)
    else on_overlay w size p in
  loadable w (overlay_path w) = true ->
  (path_exists w (Some fb) false = true -> loadable w fb = true) ->
  get_pixbuf image size fallback is_installed st =
  if path_exists w (Some image) true then
    if loadable w image
    then (Ok (shown (scale_simple
                       (new_from_file_at_size image (fst size) (snd size))
                       (fst size) (snd size))),
          st)
    else (Ok (overlay_pixbuf w size),
          add_events st [LoggerError (UnableToLoadIcon image)])
  else if path_exists w (Some fb) false
       then (Ok (shown (new_from_file_at_size fb (fst size) (snd size))), st)
       else (Ok (overlay_pixbuf w size), st).
Proof.
  intros w fb shown Hov Hfb. subst w fb shown.
  destruct size as [width height]. unfold get_pixbuf, fallback_path in *.
  unfold bind at 1. unfold get_world at 1. cbv beta iota.
  unfold overlay_pixbuf, on_overlay, overlay_path in *.
  destruct (path_exists (world st) (Some image) true).
  - unfold try_except_GError, get_overlay, Pixbuf_new_from_file_at_size.
    step_m.
    destruct (loadable (world st) image); step_m;
      destruct is_installed; step_m; rewrite ?Hov;
      destruct st; reflexivity.
  - set (fb := if truthy fallback then default "" fallback
               else get_default_icon (world st) (width, height)) in *.
    unfold get_overlay, Pixbuf_new_from_file_at_size.
    step_m.
    destruct (path_exists (world st) (Some fb) false); step_m.
    + rewrite (Hfb eq_refl). step_m.
      destruct is_installed; step_m; rewrite ?Hov;
        destruct st; reflexivity.
    + destruct is_installed; step_m; rewrite Hov;
        destruct st; reflexivity.
Qed.

Lemma get_pixbuf_fallback_chain_witness :
  loadable sample_world (overlay_path sample_world) = true /\
  (path_exists sample_world
     (Some (fallback_path sample_world ICON_SIZE None)) false = true ->
   loadable sample_world (fallback_path sample_world ICON_SIZE None) = true) /\
  fst (get_pixbuf "/covers/quake.jpg" ICON_SIZE None false sample_state) =
  Ok (on_overlay sample_world ICON_SIZE
        (scale_simple (new_from_file_at_size "/covers/quake.jpg" 32 32)
           32 32)).
Proof.
  split; [reflexivity|]. split; [intros _; reflexivity|].
  rewrite (get_pixbuf_fallback_chain sample_state "/covers/quake.jpg"
             ICON_SIZE None false).
  - vm_compute; reflexivity.
  - reflexivity.
  - intros _; reflexivity.
Defined.

(** ** Thumbnails *)

(** Width and height each reach the target and pass it by at most one. *)
Definition near_target (target_size size : Z * Z) : Prop :=
  (fst target_size <= fst size <= fst target_size + 1)%Z /\
  (snd target_size <= snd size <= snd target_size + 1)%Z.

(** Over exact rationals the crop does reach the target, within a pixel:
    the resized image covers the target, and each floored half-offset
    leaves at most one pixel too many. *)
Lemma thumbnail_size_exact_near_target (bw bh tw th : Z) :
  (0 < bw)%Z -> (0 < bh)%Z -> (0 < tw)%Z -> (0 < th)%Z ->
  near_target (tw, th) (thumbnail_size_exact (bw, bh) (tw, th)).
Proof.
  intros Hbw Hbh Htw Hth. unfold near_target, thumbnail_size_exact.
  destruct (Z.leb_spec (tw * bh) (bw * th)) as [Hle|Hgt]; cbn [fst snd].
  - assert (Hw : (tw <= bw * th / bh)%Z)
      by (apply Z.div_le_lower_bound; lia).
    rewrite (Z.quot_div_nonneg (bw * th / bh - tw) 2) by lia.
    rewrite Z.sub_diag. change (Z.quot 0 2) with 0%Z.
    pose proof (Z.div_mod (bw * th / bh - tw) 2 ltac:(lia)).
    pose proof (Z.mod_pos_bound (bw * th / bh - tw) 2 ltac:(lia)).
    lia.
  - assert (Hh : (th <= bh * tw / bw)%Z)
      by (apply Z.div_le_lower_bound; lia).
    rewrite (Z.quot_div_nonneg (bh * tw / bw - th) 2) by lia.
    rewrite Z.sub_diag. change (Z.quot 0 2) with 0%Z.
    pose proof (Z.div_mod (bh * tw / bw - th) 2 ltac:(lia)).
    pose proof (Z.mod_pos_bound (bh * tw / bw - th) 2 ltac:(lia)).
    lia.
Qed.

Example thumbnail_image_640x480_banner :
  thumbnail_image (Opened 640 480) BANNER_SIZE =
  Ok (Cropped (Resized (Opened 640 480) (184, 138)%Z)
        (0, 34, 184, 104)%Z).
Proof. vm_compute. reflexivity. Qed.

(** C9 fails on the code. In binary64, [196 * (32 / 196)] is
    [31.999999999999996], so a 196 x 196 image thumbnailed to [ICON_SIZE]
    is resized to 31 x 32 and comes back 31 x 32, one pixel short of the
    target width; likewise a 344 x 129 image thumbnailed to [BANNER_SIZE]
    comes back 183 x 69. Hence the returned size is not always at least
    the target. *)
Theorem thumbnail_image_falls_short :
  thumbnail_image (Opened 196 196) ICON_SIZE =
    Ok (Cropped (Resized (Opened 196 196) (31, 32)%Z) (0, 0, 31, 32)%Z) /\
  thumbnail_image (Opened 344 129) BANNER_SIZE =
    Ok (Cropped (Resized (Opened 344 129) (183, 69)%Z) (0, 0, 183, 69)%Z) /\
  ~ (forall bw bh tw th : Z,
       (0 < bw)%Z -> (0 < bh)%Z -> (0 < tw)%Z -> (0 < th)%Z ->
       exists img,
         thumbnail_image (Opened bw bh) (tw, th) = Ok img /\
         near_target (tw, th) (Image_size img)).
Proof.
  split; [vm_compute; reflexivity|]. split; [vm_compute; reflexivity|].
  intros H.
  destruct (H 196 196 32 32)%Z as (img & Himg & Hnear); try lia.
  vm_compute in Himg. injection Himg as <-.
  destruct Hnear as [[Hw _] _]. vm_compute in Hw. apply Hw. reflexivity.
Qed.

(** * Further properties of [GameActions] *)

(** ** Selecting a game *)

(** [set_game] followed by a read of [self.game]. With a game given, the
    read returns that game, [game_id] is the game's id (the [game_id]
    argument is ignored) and neither the application nor the database is
    consulted. With only an id given, the cache is dropped: the read
    returns the application's running game of that id if there is one, and
    otherwise a new [Game(game_id)]. *)
Theorem set_game_then_game (st : State) (g : option Game.t) (gid : PyId) :
  (set_game g gid;; game) st =
  match g with
  | Some g' =>
      (Ok g',
       mkState (mkGameActions (application (self st)) (Game.id g') (Some g'))
         (world st) (trace st))
  | None =>
      let g' :=
        match get_game_by_id (application (self st)) gid with
        | Some running_game => running_game
        | None => Game_init (world st) (pga (world st)) gid
        end in
      (Ok g',
       mkState (mkGameActions (application (self st)) gid (Some g'))
         (world st) (trace st))
  end.
Proof.
  destruct g as [g'|]; unfold bind, set_game; rewrite game_run; reflexivity.
Qed.

(** Once [self.game] has been read, later reads return the same game
    whatever has become of the application's running games, the database
    and the rest of the world: the cached object is never refreshed. *)
Theorem game_cache_is_sticky (st : State) (app' : Application)
    (w' : World) (tr' : list Event) :
  let st1 := snd (game st) in
  game (mkState (mkGameActions app' (game_id (self st1)) (_game (self st1)))
          w' tr') =
  (Ok (the_game st),
   mkState (mkGameActions app' (game_id (self st)) (Some (the_game st)))
     w' tr').
Proof.
  cbv zeta. rewrite game_run. cbn [snd]. rewrite game_run. reflexivity.
Qed.

(** ** The running game *)

Lemma get_running_game_run (st : State) :
  let ids := get_running_game_ids (application (self st)) in
  fst (get_running_game st) =
    Ok (if in_running_ids st then Some (the_game st) else None) /\
  events_of get_running_game st =
    if in_running_ids st then []
    else [LoggerWarning (GameNotIn (game_id (self st)) ids)].
Proof.
  unfold get_running_game, events_of, bind, get_self, in_running_ids.
  cbv beta iota zeta. rewrite get_running_game_loop_run.
  destruct (existsb _ _); unfold emit, ret; cbn [fst snd trace].
  - rewrite trace_cached, drop_ge by lia. split; reflexivity.
  - destruct (get_running_game_ids _); cbn [trace];
      rewrite ?trace_cached, drop_app_length; split; reflexivity.
Qed.

(** [get_running_game] never raises. It returns the selected game exactly
    when the [str] of its id equals the [str] of one of the application's
    running game ids, and then logs nothing; otherwise it returns [None]
    and logs one warning that names [game_id] and the ids. *)
Theorem get_running_game_spec (st : State) :
  let ids := get_running_game_ids (application (self st)) in
  fst (get_running_game st) =
    Ok (if in_running_ids st then Some (the_game st) else None) /\
  events_of get_running_game st =
    if in_running_ids st then []
    else [LoggerWarning (GameNotIn (game_id (self st)) ids)].
Proof. exact (get_running_game_run st). Qed.

(** Ids are compared as strings: a running id matches the game's id as
    soon as the two print alike, be it an integer on one side and its
    decimal string on the other. *)
Theorem get_running_game_matches_by_str (st : State) (i : PyId) :
  In i (get_running_game_ids (application (self st))) ->
  py_str i = py_str (Game.id (the_game st)) ->
  fst (get_running_game st) = Ok (Some (the_game st)) /\
  events_of on_game_stop st = [GameForceStop (the_game st)].
Proof.
  intros Hin Hstr.
  assert (Hrun : in_running_ids st = true).
  { unfold in_running_ids. apply existsb_exists. exists i.
    split; [exact Hin|]. rewrite Hstr. apply String.eqb_refl. }
  split.
  - rewrite (proj1 (get_running_game_run st)), Hrun. reflexivity.
  - unfold events_of. rewrite on_game_stop_run. cbv zeta. rewrite Hrun.
    cbn [snd]. rewrite trace_add_events, trace_cached, drop_app_length.
    reflexivity.
Qed.

(** A state whose application runs game "7", kept under a string id,
    while the selected game has the integer id 7. *)
Definition running_state : State :=
  mkState
    (mkGameActions
       {| get_game_by_id := fun _ => None;
          get_running_game_ids := [IdStr "12"; IdStr "7"] |}
       (IdInt 7) (Some sample_game))
    sample_world [].

Lemma get_running_game_matches_by_str_witness :
  In (IdStr "7") (get_running_game_ids (application (self running_state))) /\
  py_str (IdStr "7") = py_str (Game.id (the_game running_state)) /\
  fst (get_running_game running_state) = Ok (Some sample_game).
Proof.
  split; [right; left; reflexivity|]. split; [reflexivity|].
  apply (get_running_game_matches_by_str running_state (IdStr "7")).
  - right; left; reflexivity.
  - reflexivity.
Defined.

(** ** Browsing, logs *)

(** [on_browse_files] never raises and does exactly one thing: it opens
    the file browser on [file://<dir>] when the game's browse directory
    exists, and otherwise shows a notice dialog (no installation
    directory, or a folder that does not exist). It never runs [xdg-open]
    on a missing folder. *)
Theorem on_browse_files_spec (st : State) :
  let path := Game.browse_dir (the_game st) in
  fst (on_browse_files st) = Ok tt /\
  exists e,
    events_of on_browse_files st = [e] /\
    (path_exists (world st) path false = true ->
     e = SystemExecute ["xdg-open"; "file://" ++ default "" path]) /\
    (path_exists (world st) path false = false ->
     e = NoticeDialog
           (if truthy path then FolderMissing (default "" path)
            else NoInstallDir)).
Proof.
  cbv zeta. unfold events_of. rewrite on_browse_files_run. cbv zeta.
  cbn [fst snd]. rewrite trace_add_events, trace_cached, drop_app_length.
  split; [reflexivity|]. eexists. split; [reflexivity|].
  destruct (Game.browse_dir (the_game st)) as [p|]; cbn [truthy negb].
  - destruct (String.eqb_spec p "") as [->|Hne]; cbn [negb].
    + split; [discriminate|reflexivity].
    + destruct (path_exists (world st) (Some p) false);
        split; intros H; try discriminate H; reflexivity.
  - split; [discriminate|reflexivity].
Qed.

(** [on_show_logs] never raises and always opens one log window on the
    game's log buffer, also when there is none; it logs "No log for game"
    first exactly in that case. *)
Theorem on_show_logs_spec (st : State) :
  let g := the_game st in
  fst (on_show_logs st) = Ok tt /\
  events_of on_show_logs st =
    (match Game.log_buffer g with
     | Some _ => []
     | None => [LoggerInfo (NoLogForGame g)]
     end ++ [LogWindow g (Game.log_buffer g)])%list.
Proof.
  cbv zeta. unfold events_of. rewrite on_show_logs_run. cbv zeta.
  cbn [fst snd]. rewrite trace_add_events, trace_cached, drop_app_length.
  destruct (Game.log_buffer (the_game st)); split; reflexivity.
Qed.

(** ** Duplicating a game: the other paths *)

(** When the user declines, [on_game_duplicate] only showed the question:
    no configuration is duplicated and the database is untouched. *)
Theorem on_game_duplicate_declined (st : State) :
  question_yes (world st) = false ->
  on_game_duplicate st =
  (Ok tt,
   add_events (cached st) [QuestionDialog (Game.name (the_game st))]).
Proof.
  intros Hno. unfold on_game_duplicate, bind at 1. rewrite game_run.
  step_m. rewrite Hno. reflexivity.
Qed.

(** The sample world, with a user who answers no. *)
Definition declining_world : World :=
  let w := sample_world in
  mkWorld (desktop_launcher_exists w) (menu_launcher_exists w)
    (shortcut_exists w) (is_steam_game w) (files w) (loadable w)
    (datapath_get w) (Game_init w) (pga w) (get_unusued_game_name w)
    (duplicate_game_config w) false (add_game_returns w).

Definition declining_state : State :=
  mkState (self sample_state) declining_world [].

Lemma on_game_duplicate_declined_witness :
  question_yes (world declining_state) = false /\
  pga (world (snd (on_game_duplicate declining_state))) = [sample_row] /\
  events_of on_game_duplicate declining_state = [QuestionDialog "Quake"].
Proof.
  split; [reflexivity|].
  assert (H := on_game_duplicate_declined declining_state eq_refl).
  unfold events_of. rewrite H. split; reflexivity.
Defined.

(** When the database lookup gives a record without an id (the game has
    no row), the confirmed duplication raises [KeyError] at
    [db_game.pop("id")]. Nothing was added to the database, but the
    configuration of a game that has one has already been duplicated. *)
Theorem on_game_duplicate_without_row (st : State) :
  let w := world st in
  let g := the_game st in
  question_yes w = true ->
  get_game_by_field w (Game.id g) "id" !! "id" = None ->
  fst (on_game_duplicate st) = Raise (KeyError "id") /\
  pga (world (snd (on_game_duplicate st))) = pga w /\
  events_of on_game_duplicate st =
    QuestionDialog (Game.name g) ::
    (if truthy (Game.game_config_id g)
     then [DuplicateGameConfig (Game.slug g)
             (default "" (Game.game_config_id g))]
     else []).
Proof.
  cbv zeta. intros Hyes Hrow.
  assert (Hrun : exists st',
    on_game_duplicate st = (Raise (KeyError "id"), st') /\
    pga (world st') = pga (world st) /\
    trace st' =
      (trace st ++
       QuestionDialog (Game.name (the_game st)) ::
       (if truthy (Game.game_config_id (the_game st))
        then [DuplicateGameConfig (Game.slug (the_game st))
                (default "" (Game.game_config_id (the_game st)))]
        else []))%list).
  { unfold on_game_duplicate, bind at 1. rewrite game_run.
    step_m. rewrite Hyes.
    destruct (Game.game_config_id (the_game st)) as [old|];
      [destruct (truthy (Some old)) eqn:Ht|]; step_m;
      rewrite !lookup_insert_ne by discriminate; rewrite Hrow;
      (eexists; split; [reflexivity|]); cbn [world pga trace];
      rewrite <- ?app_assoc; split; reflexivity. }
  destruct Hrun as (st' & Hrun & Hdb & Htr).
  unfold events_of. rewrite Hrun. cbn [fst snd]. rewrite Htr.
  rewrite drop_app_length. repeat split; assumption || reflexivity.
Qed.

Definition duplicate_changed_keys : list string :=
  [ "id"; "name"; "configpath"; "service"; "service_id" ].

(** A confirmed duplication of a game whose database record has an id
    returns normally after these calls and no other: the question, the
    duplication of the configuration (for a game that has one), one
    [add_game] and the [save] of the game that [add_game] returned. The
    keyword arguments of [add_game] are the fields of the record that
    [get_game_by_field] gave, except that name is what
    [get_unusued_game_name] gives for the game's name, configpath is the
    duplicated configuration (or [None] for a game without one), and id,
    service and service_id are not passed. *)
Theorem duplicate_calls_add_game (st : State) :
  let w := world st in
  let g := the_game st in
  let orig := get_game_by_field w (Game.id g) "id" in
  question_yes w = true ->
  is_Some (orig !! "id") ->
  fst (on_game_duplicate st) = Ok tt /\
  exists fields : gmap string PyVal,
    events_of on_game_duplicate st =
      (QuestionDialog (Game.name g) ::
       (if truthy (Game.game_config_id g)
        then [DuplicateGameConfig (Game.slug g)
                (default "" (Game.game_config_id g))]
        else []) ++
       [DbAddGame fields; GameSave (add_game_returns w fields)])%list /\
    fields !! "name" = Some (VStr (get_unusued_game_name w (Game.name g))) /\
    fields !! "configpath" =
      Some (if truthy (Game.game_config_id g)
            then VStr (duplicate_game_config w (Game.slug g)
                         (default "" (Game.game_config_id g)))
            else VNone) /\
    fields !! "id" = None /\
    fields !! "service" = None /\
    fields !! "service_id" = None /\
    (forall k, ~ In k duplicate_changed_keys -> fields !! k = orig !! k).
Proof.
  cbv zeta. intros Hyes Hid.
  pose proof (on_game_duplicate_confirmed st Hyes Hid) as Hrun.
  cbv zeta in Hrun. unfold events_of. rewrite Hrun. cbn [fst snd].
  rewrite trace_add_events, trace_cached, drop_app_length.
  split; [reflexivity|].
  eexists. split; [reflexivity|]. unfold duplicate_fields.
  split.
  { rewrite !lookup_delete_ne by discriminate.
    rewrite lookup_insert_ne by discriminate. apply lookup_insert_eq. }
  split.
  { rewrite !lookup_delete_ne by discriminate.
    rewrite lookup_insert_eq.
    destruct (truthy (Game.game_config_id (the_game st))); reflexivity. }
  split.
  { rewrite !lookup_delete_ne by discriminate. apply lookup_delete_eq. }
  split.
  { rewrite lookup_delete_ne by discriminate. apply lookup_delete_eq. }
  split; [apply lookup_delete_eq|].
  intros k Hk. unfold duplicate_changed_keys in Hk. simpl in Hk.
  rewrite !lookup_delete_ne by (intros <-; apply Hk; tauto).
  rewrite !lookup_insert_ne by (intros <-; apply Hk; tauto).
  reflexivity.
Qed.

Lemma duplicate_calls_add_game_witness :
  question_yes (world sample_state) = true /\
  is_Some (get_game_by_field (world sample_state)
             (Game.id (the_game sample_state)) "id" !! "id") /\
  fst (on_game_duplicate sample_state) = Ok tt.
Proof.
  split; [reflexivity|].
  assert (Hid : is_Some (get_game_by_field (world sample_state)
                           (Game.id (the_game sample_state)) "id" !! "id")).
  { exists (VInt 7). vm_compute. reflexivity. }
  split; [exact Hid|].
  apply (duplicate_calls_add_game sample_state).
  - reflexivity.
  - exact Hid.
Defined.

(** A game with a configuration, selected but absent from the database. *)
Definition orphan_state : State :=
  mkState
    (mkGameActions sample_app (IdInt 99)
       (Some (Game.mk (IdInt 99) "doom" "Doom" true false false false None
                "linux" None (Some "doom-1") "/opt/doom" None None)))
    sample_world [].

Lemma on_game_duplicate_without_row_witness :
  question_yes (world orphan_state) = true /\
  get_game_by_field (world orphan_state) (IdInt 99) "id" !! "id" = None /\
  fst (on_game_duplicate orphan_state) = Raise (KeyError "id") /\
  events_of on_game_duplicate orphan_state =
    [QuestionDialog "Doom"; DuplicateGameConfig "doom" "doom-1"].
Proof.
  split; [reflexivity|]. split; [vm_compute; reflexivity|].
  destruct (on_game_duplicate_without_row orphan_state)
    as (Hraise & _ & Hev).
  - reflexivity.
  - vm_compute; reflexivity.
  - split; [exact Hraise | exact Hev].
Defined.

(** ** More on the visibility table *)

(** The dictionary a state shows. *)
Definition shown (st : State) : gmap string bool :=
  list_to_map (displayed_items (the_game st) (running st) (world st)).

Lemma shown_run st : fst (get_displayed_entries st) = Ok (shown st).
Proof. rewrite get_displayed_entries_run. reflexivity. Qed.

Lemma shown_lookup st k :
  shown st !! k =
  assoc k (displayed_items (the_game st) (running st) (world st)).
Proof. apply lookup_list_to_map_assoc. Qed.

(** Whenever the execute-script entry is shown, its callback does not
    raise: the entry requires a runner, which is what
    [on_execute_script_clicked] dereferences. *)
Theorem execute_script_shown_is_safe (st : State) (d : gmap string bool) :
  fst (get_displayed_entries st) = Ok d ->
  d !! "execute-script" = Some true ->
  fst (on_execute_script_clicked st) = Ok tt.
Proof.
  rewrite shown_run. intros [= <-]. rewrite shown_lookup.
  cbn [assoc displayed_items String.eqb Ascii.eqb Bool.eqb].
  intros [= H]. split_true.
  rewrite on_execute_script_clicked_run. cbv zeta.
  unfold has_manual_command in *.
  destruct (Game.runner (the_game st)) as [r|]; [|discriminate].
  destruct (system_config r !! "manual_command"); [|reflexivity].
  destruct (path_exists _ _ _); reflexivity.
Qed.

Lemma execute_script_shown_is_safe_witness :
  fst (get_displayed_entries sample_state) = Ok (shown sample_state) /\
  shown sample_state !! "execute-script" = Some true /\
  fst (on_execute_script_clicked sample_state) = Ok tt.
Proof.
  split; [apply shown_run|].
  split; [rewrite shown_lookup; vm_compute; reflexivity|].
  apply (execute_script_shown_is_safe sample_state (shown sample_state)).
  - apply shown_run.
  - rewrite shown_lookup. vm_compute. reflexivity.
Defined.

Definition installed_only_entries : list string :=
  [ "play"; "configure"; "browse"; "show_logs"; "install_more";
    "execute-script"; "desktop-shortcut"; "menu-shortcut"; "steam-shortcut";
    "rm-desktop-shortcut"; "rm-menu-shortcut"; "rm-steam-shortcut"; "hide" ].

(** For a game that is not installed, add and install are shown and none
    of play, configure, browse, show_logs, install_more, execute-script,
    the six shortcut entries and hide is. *)
Theorem not_installed_entries (st : State) :
  Game.is_installed (the_game st) = false ->
  exists d : gmap string bool,
    fst (get_displayed_entries st) = Ok d /\
    d !! "add" = Some true /\
    d !! "install" = Some true /\
    forall k, In k installed_only_entries -> d !! k = Some false.
Proof.
  intros Hni. exists (shown st). split; [apply shown_run|].
  rewrite !shown_lookup.
  cbn [assoc displayed_items String.eqb Ascii.eqb Bool.eqb].
  rewrite Hni. split; [reflexivity|]. split; [reflexivity|].
  intros k Hk. rewrite shown_lookup. unfold installed_only_entries in Hk.
  simpl in Hk.
  repeat (destruct Hk as [<-|Hk];
          [cbn [assoc displayed_items String.eqb Ascii.eqb Bool.eqb];
           rewrite Hni;
           try reflexivity;
           destruct (truthy (Game.service (the_game st))); reflexivity|]).
  contradiction.
Qed.

Lemma not_installed_entries_witness :
  Game.is_installed (the_game unset_state) = false /\
  exists d : gmap string bool,
    fst (get_displayed_entries unset_state) = Ok d /\
    d !! "add" = Some true /\
    d !! "install" = Some true /\
    forall k, In k installed_only_entries -> d !! k = Some false.
Proof.
  split; [reflexivity|].
  apply (not_installed_entries unset_state). reflexivity.
Defined.

(** Complementary entries. In every state exactly one of favorite and
    deletefavorite is shown, and exactly one of install and configure;
    add goes with install and install_dlcs with update. For an installed
    game exactly one entry of the desktop shortcut pair and one of the menu
    shortcut pair is shown; exactly one of the Steam pair when the game is
    moreover not a Steam game, and neither when it is a Steam game. *)
Theorem complementary_entries (st : State) :
  let g := the_game st in
  let w := world st in
  exists d : gmap string bool,
    fst (get_displayed_entries st) = Ok d /\
    d !! "favorite" = negb <$> d !! "deletefavorite" /\
    d !! "install" = negb <$> d !! "configure" /\
    d !! "add" = d !! "install" /\
    d !! "install_dlcs" = d !! "update" /\
    (Game.is_installed g = true ->
     d !! "desktop-shortcut" = negb <$> d !! "rm-desktop-shortcut" /\
     d !! "menu-shortcut" = negb <$> d !! "rm-menu-shortcut" /\
     (is_steam_game w g = false ->
      d !! "steam-shortcut" = negb <$> d !! "rm-steam-shortcut")) /\
    (is_steam_game w g = true ->
     d !! "steam-shortcut" = Some false /\
     d !! "rm-steam-shortcut" = Some false).
Proof.
  cbv zeta. exists (shown st). split; [apply shown_run|].
  rewrite !shown_lookup.
  cbn [assoc displayed_items String.eqb Ascii.eqb Bool.eqb fmap option_fmap
       option_map].
  split; [reflexivity|]. split; [reflexivity|]. split; [reflexivity|].
  split; [reflexivity|]. split.
  - intros ->. cbn [andb]. split; [reflexivity|]. split; [reflexivity|].
    intros ->. cbn [negb]. rewrite !Bool.andb_true_r. reflexivity.
  - intros ->. cbn [negb]. rewrite !Bool.andb_false_r. split; reflexivity.
Qed.

(** * Further properties of the widget utilities *)

(** ** [get_pixbuf]: errors and the overlay *)

(** Whether [get_pixbuf] gets to load a fallback that is on disk but does
    not decode; that load is outside the [try]. *)
Definition fallback_undecodable (w : World) (image : string) (size : Z * Z)
    (fallback : option string) : bool :=
  let fb := fallback_path w size fallback in
  negb (path_exists w (Some image) true) &&
  path_exists w (Some fb) false && negb (loadable w fb).

(** Whether a pixbuf is obtained from [image] or from the fallback. *)
Definition pixbuf_obtained (w : World) (image : string) (size : Z * Z)
    (fallback : option string) : bool :=
  let fb := fallback_path w size fallback in
  if path_exists w (Some image) true then loadable w image
  else path_exists w (Some fb) false && loadable w fb.

Lemma get_pixbuf_fails_iff (st : State) (image : string) (size : Z * Z)
    (fallback : option string) (is_installed : bool) :
  let w := world st in
  let fails :=
    fallback_undecodable w image size fallback ||
    (negb (is_installed && pixbuf_obtained w image size fallback) &&
     negb (loadable w (overlay_path w))) in
  if fails
  then fst (get_pixbuf image size fallback is_installed st) = Raise GError
  else exists p, fst (get_pixbuf image size fallback is_installed st) = Ok p.
Proof.
  cbv zeta. unfold fallback_undecodable, pixbuf_obtained, fallback_path.
  destruct size as [width height].
  remember (fst (get_pixbuf image (width, height) fallback is_installed st))
    as r eqn:E.
  revert E. unfold get_pixbuf.
  unfold bind at 1. unfold get_world at 1. cbv beta iota.
  unfold overlay_path.
  set (fb := if truthy fallback then default "" fallback
             else get_default_icon (world st) (width, height)).
  set (ov := path_join (datapath_get (world st)) "media/unavailable.png").
  unfold try_except_GError, get_overlay, Pixbuf_new_from_file_at_size.
  destruct (path_exists (world st) (Some image) true); cbn [negb andb orb].
  - step_m.
    destruct (loadable (world st) image); step_m;
      destruct is_installed; cbn [negb andb orb]; step_m;
      try (intros ->; eexists; reflexivity);
      destruct (loadable (world st) ov); cbn [negb]; step_m;
      intros ->; try reflexivity; eexists; reflexivity.
  - step_m.
    destruct (path_exists (world st) (Some fb) false); cbn [negb andb orb];
      step_m.
    + destruct (loadable (world st) fb); cbn [negb andb orb]; step_m;
        [|intros ->; reflexivity].
      destruct is_installed; cbn [negb andb orb]; step_m;
        try (intros ->; eexists; reflexivity);
        destruct (loadable (world st) ov); cbn [negb]; step_m;
        intros ->; try reflexivity; eexists; reflexivity.
    + rewrite Bool.andb_false_r. cbn [negb andb orb].
      destruct is_installed; step_m;
        destruct (loadable (world st) ov); cbn [negb]; step_m;
        intros ->; try reflexivity; eexists; reflexivity.
Qed.

(** [get_pixbuf] fails only with [GLib.GError], in two cases: the image
    file is missing (or empty) and the fallback in use is on disk but does
    not decode; or the unavailable overlay is needed (the game is not
    installed, or no pixbuf was obtained) and does not decode. In every
    other case it returns a pixbuf. A cover that does not decode never
    makes it fail. *)
Theorem get_pixbuf_errors (st : State) (image : string) (size : Z * Z)
    (fallback : option string) (is_installed : bool) :
  let w := world st in
  let fails :=
    fallback_undecodable w image size fallback ||
    (negb (is_installed && pixbuf_obtained w image size fallback) &&
     negb (loadable w (overlay_path w))) in
  if fails
  then fst (get_pixbuf image size fallback is_installed st) = Raise GError
  else exists p, fst (get_pixbuf image size fallback is_installed st) = Ok p.
Proof.
  exact (get_pixbuf_fails_iff st image size fallback is_installed).
Qed.

(** For a game that is not installed, whatever [get_pixbuf] returns is
    made on the unavailable overlay: the bare overlay, or the image or
    fallback composited onto it; it is never the bare image. *)
Theorem get_pixbuf_not_installed (st : State) (image : string)
    (size : Z * Z) (fallback : option string) :
  let w := world st in
  match fst (get_pixbuf image size fallback false st) with
  | Ok p => p = overlay_pixbuf w size \/ exists q, p = on_overlay w size q
  | Raise e => e = GError
  end.
Proof.
  cbv zeta. destruct size as [width height]. unfold get_pixbuf.
  unfold bind at 1. unfold get_world at 1. cbv beta iota.
  unfold overlay_pixbuf, on_overlay, overlay_path.
  set (fb := if truthy fallback then default "" fallback
             else get_default_icon (world st) (width, height)).
  set (ov := path_join (datapath_get (world st)) "media/unavailable.png").
  unfold try_except_GError, get_overlay, Pixbuf_new_from_file_at_size.
  destruct (path_exists (world st) (Some image) true); step_m.
  - destruct (loadable (world st) image); step_m;
      destruct (loadable (world st) ov); step_m;
      try reflexivity; [right; eexists; reflexivity | left; reflexivity].
  - destruct (path_exists (world st) (Some fb) false); step_m.
    + destruct (loadable (world st) fb); step_m; [|reflexivity].
      destruct (loadable (world st) ov); step_m;
        try reflexivity. right; eexists; reflexivity.
    + destruct (loadable (world st) ov); step_m;
        try reflexivity. left; reflexivity.
Qed.

Lemma get_pixbuf_cover_run (st : State) (image : string)
    (size : Z * Z) (fallback : option string) :
  path_exists (world st) (Some image) true = true ->
  loadable (world st) image = true ->
  get_pixbuf image size fallback true st =
  (Ok (scale_simple
         (scale_simple (new_from_file_at_size image (fst size) (snd size))
            (fst size) (snd size))
         (fst size) (snd size)),
   st).
Proof.
  intros Hex Hload. destruct size as [width height]. unfold get_pixbuf.
  unfold bind at 1. unfold get_world at 1. cbv beta iota.
  rewrite Hex.
  unfold try_except_GError, get_overlay, Pixbuf_new_from_file_at_size.
  step_m. rewrite Hload. destruct st; reflexivity.
Qed.

(** For an installed game whose cover is on disk, not empty, and decodes,
    [get_pixbuf] returns the cover at exactly [size] and reads nothing
    else: neither the fallback nor the overlay file matters, nothing is
    logged and the state is unchanged. *)
Theorem get_pixbuf_installed_cover (st : State) (image : string)
    (size : Z * Z) (fallback : option string) :
  path_exists (world st) (Some image) true = true ->
  loadable (world st) image = true ->
  get_pixbuf image size fallback true st =
  (Ok (scale_simple
         (scale_simple (new_from_file_at_size image (fst size) (snd size))
            (fst size) (snd size))
         (fst size) (snd size)),
   st).
Proof. exact (get_pixbuf_cover_run st image size fallback). Qed.

(** A world where only the cover file is readable: there is no overlay
    and no default icon on disk, and nothing but the cover decodes. *)
Definition cover_only_world : World :=
  let w := sample_world in
  mkWorld (desktop_launcher_exists w) (menu_launcher_exists w)
    (shortcut_exists w) (is_steam_game w)
    (fun p => if String.eqb p "/covers/quake.jpg" then Some 5000%Z else None)
    (fun p => String.eqb p "/covers/quake.jpg")
    (datapath_get w) (Game_init w) (pga w) (get_unusued_game_name w)
    (duplicate_game_config w) (question_yes w) (add_game_returns w).

Lemma get_pixbuf_installed_cover_witness :
  let st := mkState (self sample_state) cover_only_world [] in
  path_exists (world st) (Some "/covers/quake.jpg") true = true /\
  loadable (world st) "/covers/quake.jpg" = true /\
  fst (get_pixbuf "/covers/quake.jpg" BANNER_SIZE None true st) =
  Ok (scale_simple
        (scale_simple (new_from_file_at_size "/covers/quake.jpg" 184 69)
           184 69) 184 69).
Proof.
  cbv zeta. split; [reflexivity|]. split; [reflexivity|].
  rewrite (get_pixbuf_installed_cover
             (mkState (self sample_state) cover_only_world [])
             "/covers/quake.jpg" BANNER_SIZE None).
  - reflexivity.
  - reflexivity.
  - reflexivity.
Defined.

(** ** [get_icon] *)

(** [os.path.join a b]: an absolute [b] replaces [a]. *)
Definition os_path_join (a b : string) : string :=
  match b with
  | String "/" _ => b
  | _ => path_join a b
  end.

(** [str.lower] on the characters of an ASCII string: the letters A to Z
    are lowered. Python also lowers letters outside ASCII, which this
    leaves alone: the model of [get_icon] is that of the code on ASCII
    icon names (see [is_ascii]). *)
Definition lower_ascii (c : ascii) : ascii :=
  let n := nat_of_ascii c in
  if ((65 <=? n)%nat && (n <=? 90)%nat)%bool then ascii_of_nat (n + 32)
  else c.

Fixpoint str_lower (s : string) : string :=
  match s with
  | EmptyString => EmptyString
  | String c r => String (lower_ascii c) (str_lower r)
  end.

(** [s.replace(" ", "")] *)
Fixpoint str_remove_spaces (s : string) : string :=
  match s with
  | EmptyString => EmptyString
  | String c r =>
      if Ascii.eqb c " " then str_remove_spaces r
      else String c (str_remove_spaces r)
  end.

(** Whether every character of a string is ASCII. *)
Fixpoint is_ascii (s : string) : bool :=
  match s with
  | EmptyString => true
  | String c r => (nat_of_ascii c <? 128)%nat && is_ascii r
  end.

(** [icon_name.lower().replace(" ", "")], for an ASCII [icon_name]. *)
Definition icon_key (icon_name : string) : string :=
  str_remove_spaces (str_lower icon_name).

(** The path [get_icon] looks at, under [settings.RUNTIME_DIR]. *)
Definition icon_path (RUNTIME_DIR icon_name : string) : string :=
  os_path_join (os_path_join RUNTIME_DIR "icons/hicolor/64x64/apps")
    (icon_key icon_name ++ ".png").

(** What [get_icon] returns: a [Gtk.Image] set from a pixbuf or from a
    file, or a pixbuf. *)
Inductive Icon :=
| GtkImage_from_pixbuf (p : Pixbuf)
| GtkImage_from_file (filename : string)
| IconPixbuf (p : Pixbuf).

(** [os.path.exists] *)
Definition os_path_exists (w : World) (path : string) : bool :=
  match files w path with
  | Some _ => true
  | None => false
  end.

(** [get_icon]; [settings.RUNTIME_DIR] is a parameter, [icon_type] is not
    used by the code. *)
Definition get_icon (RUNTIME_DIR : string) (icon_name icon_format : string)
    (size : option (Z * Z)) : M (option Icon) :=
  let icon_path := icon_path RUNTIME_DIR icon_name in
  let* w := get_world in
  if negb (os_path_exists w icon_path) then ret None
  else if String.eqb icon_format "image" then
    match size with
    | Some sz =>
        let* p := get_pixbuf icon_path sz None true in
        ret (Some (GtkImage_from_pixbuf p))
    | None => ret (Some (GtkImage_from_file icon_path))
    end
  else
    match String.eqb icon_format "pixbuf", size with
    | true, Some sz =>
        let* p := get_pixbuf icon_path sz None true in
        ret (Some (IconPixbuf p))
    | _, _ => raise ValueError
    end.



Lemma str_lower_idempotent s : str_lower (str_lower s) = str_lower s.
Proof.
  induction s as [|c r IH]; [reflexivity|]. cbn [str_lower].
  rewrite IH. f_equal.
  destruct c as [[] [] [] [] [] [] [] []]; reflexivity.
Qed.

Lemma str_lower_remove_spaces s :
  str_lower (str_remove_spaces s) = str_remove_spaces (str_lower s).
Proof.
  induction s as [|c r IH]; [reflexivity|].
  cbn [str_lower str_remove_spaces].
  destruct c as [[] [] [] [] [] [] [] []];
    cbn [Ascii.eqb Bool.eqb str_lower]; rewrite IH; reflexivity.
Qed.

Lemma str_remove_spaces_idempotent s :
  str_remove_spaces (str_remove_spaces s) = str_remove_spaces s.
Proof.
  induction s as [|c r IH]; [reflexivity|]. cbn [str_remove_spaces].
  destruct (Ascii.eqb c " ") eqn:E; [exact IH|].
  cbn [str_remove_spaces]. rewrite E, IH. reflexivity.
Qed.

Lemma icon_key_idempotent s : icon_key (icon_key s) = icon_key s.
Proof.
  unfold icon_key.
  rewrite str_lower_remove_spaces, str_lower_idempotent.
  apply str_remove_spaces_idempotent.
Qed.

Lemma str_remove_spaces_app a b :
  str_remove_spaces (a ++ b) = str_remove_spaces a ++ str_remove_spaces b.
Proof.
  induction a as [|c r IH]; [reflexivity|].
  change (String c r ++ b) with (String c (r ++ b)).
  cbn [str_remove_spaces].
  destruct (Ascii.eqb c " "); [exact IH|].
  rewrite IH. reflexivity.
Qed.

Lemma str_lower_app a b : str_lower (a ++ b) = str_lower a ++ str_lower b.
Proof.
  induction a as [|c r IH]; [reflexivity|].
  change (String c r ++ b) with (String c (r ++ b)).
  cbn [str_lower]. rewrite IH. reflexivity.
Qed.

(** ASCII icon names are looked up by their lower-cased, space-free form:
    an ASCII icon name and that form give the same result, and so do two
    ASCII names that differ by a space. *)
Theorem get_icon_name_normalised (RUNTIME_DIR a b icon_format : string)
    (size : option (Z * Z)) :
  is_ascii a = true ->
  is_ascii b = true ->
  get_icon RUNTIME_DIR (icon_key a) icon_format size =
    get_icon RUNTIME_DIR a icon_format size /\
  get_icon RUNTIME_DIR (a ++ " " ++ b) icon_format size =
    get_icon RUNTIME_DIR (a ++ b) icon_format size.
Proof.
  intros _ _. unfold get_icon, icon_path. rewrite icon_key_idempotent.
  split; [reflexivity|].
  unfold icon_key.
  rewrite !str_lower_app, !str_remove_spaces_app. reflexivity.
Qed.

Lemma get_icon_name_normalised_witness :
  is_ascii "Wine" = true /\
  is_ascii "Steam" = true /\
  icon_key "Wine Steam" = "winesteam" /\
  get_icon "/var/lutris" ("Wine" ++ " " ++ "Steam") "image" None =
    get_icon "/var/lutris" ("Wine" ++ "Steam") "image" None.
Proof.
  split; [reflexivity|]. split; [reflexivity|]. split; [reflexivity|].
  apply (get_icon_name_normalised "/var/lutris" "Wine" "Steam" "image" None).
  - reflexivity.
  - reflexivity.
Defined.




(** ** [load_icon_theme] *)

(** [load_icon_theme], on the search path of the default icon theme: the
    lutris icon folder is prepended unless it is already there. *)
Definition load_icon_theme (RUNTIME_DIR : string)
    (search_path : list string) : list string :=
  let local_theme_path := os_path_join RUNTIME_DIR "icons" in
  if existsb (String.eqb local_theme_path) search_path
  then search_path
  else local_theme_path :: search_path.

(** After [load_icon_theme] the lutris icon folder is in the search path;
    the paths that were there are kept, in their order, behind it; the
    folder is never added twice, so a second call changes nothing and a
    search path without repetition stays so. *)
Theorem load_icon_theme_idempotent (RUNTIME_DIR : string)
    (search_path : list string) :
  let local_theme_path := os_path_join RUNTIME_DIR "icons" in
  let sp := load_icon_theme RUNTIME_DIR search_path in
  In local_theme_path sp /\
  (sp = search_path \/ sp = local_theme_path :: search_path) /\
  load_icon_theme RUNTIME_DIR sp = sp /\
  (NoDup search_path -> NoDup sp).
Proof.
  cbv zeta. unfold load_icon_theme.
  destruct (existsb _ search_path) eqn:E.
  - rewrite E. split; [|repeat split; auto].
    apply existsb_exists in E as (x & Hx & Heq).
    apply String.eqb_eq in Heq. subst x. exact Hx.
  - cbn [existsb]. rewrite String.eqb_refl. cbn [orb].
    split; [left; reflexivity|]. split; [right; reflexivity|].
    split; [reflexivity|].
    intros Hnd. apply NoDup_cons. split; [|exact Hnd].
    intros Hin. apply list_elem_of_In in Hin.
    assert (existsb (String.eqb (os_path_join RUNTIME_DIR "icons"))
              search_path = true) as Habs.
    { apply existsb_exists. eexists. split; [exact Hin|].
      apply String.eqb_refl. }
    congruence.
Qed.

(** ** [thumbnail_image]: what holds under rounding *)

Lemma truediv_two a :
  Float.truediv a 2 = Ok (Float.div (Float.of_int a) (Float.of_int 2)).
Proof. reflexivity. Qed.

Lemma resize_then_crop (base : Image) (w h x y : Z) :
  match
    Res_bind (Image_resize base (w, h))
      (fun resized => Image_crop resized (x, y, w - x, h - y)%Z)
  with
  | Ok img =>
      img = Cropped (Resized base (w, h)) (x, y, w - x, h - y)%Z /\
      ((w, h) = Image_size base \/ (1 <= w /\ 1 <= h)%Z) /\
      (x <= w - x)%Z /\ (y <= h - y)%Z
  | Raise e => e = ValueError
  end.
Proof.
  unfold Image_resize, Image_crop. cbn [fst snd].
  destruct (Image_size base) as [bw bh]. cbn [fst snd].
  destruct (Z.eqb_spec w bw) as [->|Hw]; cbn [andb].
  - destruct (Z.eqb_spec h bh) as [->|Hh]; cbn [Res_bind].
    + destruct (Z.ltb_spec (bw - x) x), (Z.ltb_spec (bh - y) y);
        cbn [orb]; try reflexivity.
      repeat split; auto.
    + destruct (Z.ltb_spec bw 1), (Z.ltb_spec h 1); cbn [orb Res_bind];
        try reflexivity.
      destruct (Z.ltb_spec (bw - x) x), (Z.ltb_spec (h - y) y);
        cbn [orb]; try reflexivity.
      repeat split; auto.
  - destruct (Z.ltb_spec w 1), (Z.ltb_spec h 1); cbn [orb Res_bind];
      try reflexivity.
    destruct (Z.ltb_spec (w - x) x), (Z.ltb_spec (h - y) y);
      cbn [orb]; try reflexivity.
    repeat split; auto.
Qed.

(** Whatever the rounding, [thumbnail_image] fits one side exactly: when
    it returns, the image was resized so that its height is the target
    height, or its width the target width, and that side is not cropped;
    the other side is cropped by the same offset at both ends. The resized
    image has a positive width and height (unless the base image already
    had that size) and the crop box is not inverted, PIL raising
    [ValueError] otherwise. It raises nothing but [ZeroDivisionError],
    [OverflowError] and [ValueError]. *)
Theorem thumbnail_image_fits_one_side (base_image : Image) (tw th : Z) :
  match thumbnail_image base_image (tw, th) with
  | Ok img =>
      exists w h x y : Z,
        img = Cropped (Resized base_image (w, h)) (x, y, w - x, h - y)%Z /\
        Image_size img = (w - x - x, h - y - y)%Z /\
        ((h = th /\ y = 0%Z) \/ (w = tw /\ x = 0%Z)) /\
        ((w, h) = Image_size base_image \/ (1 <= w /\ 1 <= h)%Z) /\
        (x <= w - x)%Z /\ (y <= h - y)%Z
  | Raise e => e = ZeroDivisionError \/ e = OverflowError \/ e = ValueError
  end.
Proof.
  unfold thumbnail_image.
  destruct (Image_size base_image) as [bw bh] eqn:Hsize.
  assert (Hdiv : forall a b,
             match Float.truediv a b with
             | Ok _ => True
             | Raise e => e = ZeroDivisionError
             end).
  { intros a b. unfold Float.truediv. destruct (b =? 0)%Z; auto. }
  assert (Hint : forall f,
             match Float.to_int f with
             | Ok _ => True
             | Raise e => e = OverflowError \/ e = ValueError
             end).
  { intros [s|s| |s m e]; cbn [Float.to_int]; auto. }
  pose proof (Hdiv bw bh) as H1.
  destruct (Float.truediv bw bh) as [base_ratio|e]; cbn [Res_bind];
    [clear H1|auto].
  pose proof (Hdiv tw th) as H2.
  destruct (Float.truediv tw th) as [target_ratio|e]; cbn [Res_bind];
    [clear H2|auto].
  destruct (Float.ge base_ratio target_ratio).
  - pose proof (Hdiv th bh) as H3.
    destruct (Float.truediv th bh) as [q|e]; cbn [Res_bind]; [clear H3|auto].
    pose proof (Hint (Float.mul (Float.of_int bw) q)) as H4.
    destruct (Float.to_int _) as [width|e]; cbn [Res_bind];
      [clear H4|tauto].
    rewrite truediv_two. cbn [Res_bind].
    pose proof (Hint (Float.div (Float.of_int (width - tw))
                        (Float.of_int 2))) as H5.
    destruct (Float.to_int _) as [x|e]; cbn [Res_bind]; [clear H5|tauto].
    rewrite Z.sub_diag.
    change (Float.truediv 0 2) with
      (Ok (Float.div (Float.of_int 0) (Float.of_int 2))).
    cbn [Res_bind].
    change (Float.to_int (Float.div (Float.of_int 0) (Float.of_int 2)))
      with (Ok 0%Z : Res Z).
    cbn [Res_bind].
    pose proof (resize_then_crop base_image width th x 0) as Hrc.
    cbv beta in Hrc. unfold Res_bind in Hrc |- *.
    destruct (Image_resize base_image (width, th)) as [resized|e];
      [|subst e; tauto].
    destruct (Image_crop resized _) as [img|e]; [|subst e; tauto].
    destruct Hrc as (-> & Hpos & Hx & Hy).
    exists width, th, x, 0%Z. rewrite Hsize in Hpos.
    repeat split; auto.
  - pose proof (Hdiv tw bw) as H3.
    destruct (Float.truediv tw bw) as [q|e]; cbn [Res_bind]; [clear H3|auto].
    pose proof (Hint (Float.mul (Float.of_int bh) q)) as H4.
    destruct (Float.to_int _) as [height|e]; cbn [Res_bind];
      [clear H4|tauto].
    rewrite Z.sub_diag.
    change (Float.truediv 0 2) with
      (Ok (Float.div (Float.of_int 0) (Float.of_int 2))).
    cbn [Res_bind].
    change (Float.to_int (Float.div (Float.of_int 0) (Float.of_int 2)))
      with (Ok 0%Z : Res Z).
    cbn [Res_bind].
    rewrite truediv_two. cbn [Res_bind].
    pose proof (Hint (Float.div (Float.of_int (height - th))
                        (Float.of_int 2))) as H5.
    destruct (Float.to_int _) as [y|e]; cbn [Res_bind]; [clear H5|tauto].
    pose proof (resize_then_crop base_image tw height 0 y) as Hrc.
    cbv beta in Hrc. unfold Res_bind in Hrc |- *.
    destruct (Image_resize base_image (tw, height)) as [resized|e];
      [|subst e; tauto].
    destruct (Image_crop resized _) as [img|e]; [|subst e; tauto].
    destruct Hrc as (-> & Hpos & Hx & Hy).
    exists tw, height, 0%Z, y. rewrite Hsize in Hpos.
    repeat split; auto.
Qed.

(** A base image of height 0, or a target of height 0, makes
    [thumbnail_image] raise [ZeroDivisionError]. *)
Theorem thumbnail_image_zero_height (base_image : Image) (tw th : Z) :
  snd (Image_size base_image) = 0%Z \/ th = 0%Z ->
  thumbnail_image base_image (tw, th) = Raise ZeroDivisionError.
Proof.
  unfold thumbnail_image.
  destruct (Image_size base_image) as [bw bh]. cbn [snd].
  unfold Float.truediv at 1.
  destruct (Z.eqb_spec bh 0) as [->|Hbh]; [reflexivity|].
  intros [H| ->]; [contradiction|]. cbn [Res_bind].
  reflexivity.
Qed.

Lemma thumbnail_image_zero_height_witness :
  (snd (Image_size (Opened 640 0)) = 0%Z \/ snd BANNER_SIZE = 0%Z) /\
  thumbnail_image (Opened 640 0) BANNER_SIZE = Raise ZeroDivisionError.
Proof.
  split; [left; reflexivity|].
  apply (thumbnail_image_zero_height (Opened 640 0) 184 69).
  left. reflexivity.
Defined.

(** * Installing *)

(** [on_install_clicked] emits "game-install" on the game, and nothing
    else, when the game has a slug. When the slug is empty it raises
    before emitting anything: no signal, no log line, no dialog. The
    install and install_more actions are bound to this one callback. *)
Theorem on_install_clicked_spec (st : State) :
  let g := the_game st in
  callback_of "install" = Some on_install_clicked /\
  callback_of "install_more" = Some on_install_clicked /\
  (fst (on_install_clicked st) = Ok tt <-> Game.slug g <> "") /\
  events_of on_install_clicked st =
    if String.eqb (Game.slug g) "" then [] else [GameEmit g "game-install"].
Proof.
  cbv zeta. split; [reflexivity|]. split; [reflexivity|].
  unfold events_of. rewrite on_install_clicked_run. cbv zeta.
  destruct (String.eqb_spec (Game.slug (the_game st)) "") as [Heq|Hne];
    cbn [fst snd].
  - rewrite trace_cached, drop_ge by lia.
    split; [|reflexivity]. split; [discriminate|]. intros H. contradiction.
  - rewrite trace_add_events, trace_cached, drop_app_length.
    split; [|reflexivity]. split; [intros _; exact Hne | reflexivity].
Qed.
